(** * Response-field extraction of the Siglent SDG driver

    A shallow embedding of
    [qcodes_contrib_drivers/drivers/Siglent/_sdg_response_fields.py]
    (and of the local [strip_unit] helper of [sdg.py]), followed by the
    properties of the extractors built by its four factories.

    Python values are modelled as follows.
    - [str] is [string]; a character is an [ascii].
    - [int] is [Z]; slicing [s[n:]] and [s[:n]] follows Python for negative
      and out-of-range indices.
    - an iterator over a list is the list of the items it has not yielded yet;
      [next] returns the item together with the advanced iterator.
    - a call either returns or raises: [pyres].
    - the caller's transform [then] (written [then_] here) is an arbitrary
      callable on objects; every call made to it is recorded, so that "the
      transform is applied once" is a statement about the record: [Eff]. *)

From Stdlib Require Import String Ascii List ZArith Lia Bool.
Import ListNotations.

Local Open Scope string_scope.
Local Open Scope list_scope.

(** ** Python strings *)

Module PyStr.

Fixpoint drop (n : nat) (s : string) : string :=
  match n, s with
  | O, _ => s
  | S _, EmptyString => EmptyString
  | S n', String _ s' => drop n' s'
  end.

Fixpoint take (n : nat) (s : string) : string :=
  match n, s with
  | O, _ => EmptyString
  | S _, EmptyString => EmptyString
  | S n', String c s' => String c (take n' s')
  end.

(** [s[n:]] *)
Definition slice_from (n : Z) (s : string) : string :=
  let len := Z.of_nat (String.length s) in
  let start := if (n <? 0)%Z then Z.max (len + n) 0 else Z.min n len in
  drop (Z.to_nat start) s.

(** [s[:n]] *)
Definition slice_to (n : Z) (s : string) : string :=
  let len := Z.of_nat (String.length s) in
  let stop := if (n <? 0)%Z then Z.max (len + n) 0 else Z.min n len in
  take (Z.to_nat stop) s.

(** [s.startswith(p)] *)
Fixpoint startswith (s p : string) : bool :=
  match p, s with
  | EmptyString, _ => true
  | String _ _, EmptyString => false
  | String a p', String b s' => Ascii.eqb a b && startswith s' p'
  end.

(** [s.endswith(suffix)] *)
Definition endswith (s suffix : string) : bool :=
  (String.length suffix <=? String.length s)%nat
  && String.eqb (drop (String.length s - String.length suffix) s) suffix.

(** [s.removesuffix(suffix)]: "if the string ends with the suffix string
    and that suffix is not empty, return [s[:-len(suffix)]]; otherwise
    return the original string". *)
Definition removesuffix (s suffix : string) : string :=
  if negb (String.eqb suffix EmptyString) && endswith s suffix
  then slice_to (- Z.of_nat (String.length suffix)) s
  else s.

(** [s.split(sep)] for a one-character separator: the result is never
    empty, and the empty string splits into one empty token. *)
Fixpoint split (sep : ascii) (s : string) : list string :=
  match s with
  | EmptyString => [EmptyString]
  | String c s' =>
      if Ascii.eqb c sep then EmptyString :: split sep s'
      else match split sep s' with
           | tok :: toks => String c tok :: toks
           | [] => [String c EmptyString]
           end
  end.

(** [sep.join(toks)] *)
Fixpoint join (sep : ascii) (toks : list string) : string :=
  match toks with
  | [] => EmptyString
  | [t] => t
  | t :: toks' => t ++ String sep (join sep toks')
  end.

Fixpoint count_char (c : ascii) (s : string) : nat :=
  match s with
  | EmptyString => O
  | String a s' => (if Ascii.eqb a c then 1 else 0) + count_char c s'
  end.

(** The token holds no separator. *)
Definition sep_free (c : ascii) (s : string) : Prop := count_char c s = O.

End PyStr.

Definition comma : ascii := ","%char.
Definition comma_free : string -> Prop := PyStr.sep_free comma.

(** ** Objects, results and the record of transform calls *)

(** The objects the extractors handle: [None], a [str], and a list iterator
    (given by the items it has not yielded yet). *)
Inductive pyobj : Type :=
| PNone
| PStr (s : string)
| PIter (rest : list string).

(** [o == s] for a [str] [s]: only a [str] with the same characters is equal
    to it; an iterator or [None] compares unequal to every [str]. *)
Definition py_eq_str (o : pyobj) (s : string) : bool :=
  match o with
  | PStr t => String.eqb t s
  | _ => false
  end.

(** What the module's loops pull out of an iterable: either [str] tokens or
    arbitrary objects. *)
Class PyObj (T : Type) := to_obj : T -> pyobj.
#[global] Instance PyObj_string : PyObj string := PStr.
#[global] Instance PyObj_pyobj : PyObj pyobj := fun o => o.

Inductive exn : Type :=
| StopIteration
| ValueError
| OtherException (name : string).

Inductive pyres (A : Type) : Type :=
| Ret (a : A)
| Raise (e : exn).
Arguments Ret {A} a.
Arguments Raise {A} e.

(** A computation of the module: the arguments the transform was called
    with, in order, and how the computation ended. *)
Definition Eff (A : Type) : Type := (list pyobj * pyres A)%type.

Definition ret {A} (a : A) : Eff A := ([], Ret a).
Definition raise {A} (e : exn) : Eff A := ([], Raise e).
Definition lift {A} (r : pyres A) : Eff A := ([], r).

Definition bind {A B} (m : Eff A) (k : A -> Eff B) : Eff B :=
  match m with
  | (l, Ret a) => let (l', r) := k a in (l ++ l', r)
  | (l, Raise e) => (l, Raise e)
  end.

Notation "x <- m ;; k" := (bind m (fun x => k))
  (at level 61, m at next level, right associativity).
Notation "' p <- m ;; k" := (bind m (fun x => match x with p => k end))
  (at level 61, p pattern, m at next level, right associativity).

(** One call [f(x)]. *)
Definition call {V} (f : pyobj -> pyres V) (x : pyobj) : Eff V := ([x], f x).

(** Sequencing of calls that record nothing. *)
Definition pyres_bind {A B} (r : pyres A) (k : A -> pyres B) : pyres B :=
  match r with
  | Ret a => k a
  | Raise e => Raise e
  end.

(** ** Iterators *)

(** [iter(list_)] *)
Definition iter {T} (l : list T) : list T := l.

(** [next(it)] *)
Definition next {T} (it : list T) : pyres (T * list T) :=
  match it with
  | [] => Raise StopIteration
  | x :: it' => Ret (x, it')
  end.

(** [itertools.takewhile] *)
Fixpoint takewhile {T} (p : T -> bool) (it : list T) : list T :=
  match it with
  | [] => []
  | x :: it' => if p x then x :: takewhile p it' else []
  end.

(** [for x in it: if p(x): break] and [else:]: [Some it'] when the loop
    broke, with the iterator left at [it']; [None] when it ran to the end
    (the [else] clause runs). *)
Fixpoint for_break {T} (p : T -> bool) (it : list T) : option (list T) :=
  match it with
  | [] => None
  | x :: it' => if p x then Some it' else for_break p it'
  end.

(** ** The module [_sdg_response_fields] *)

Definition identity (x : pyobj) : pyres pyobj := Ret x.

(** [zip(it, it)] on one shared iterator [it]: every round pulls the first
    component and then the second from the same iterator, and [zip] ends at
    the first pull that raises [StopIteration]; an item pulled as a first
    component in that round is lost with it. *)
Fixpoint zip_shared {T} (it : list T) : list (T * T) :=
  match it with
  | a :: b :: it' => (a, b) :: zip_shared it'
  | _ => []
  end.

(** [zip] unpacked over [2 * (iter(list_),)]: both arguments of [zip] are
    the one iterator [iter(list_)]. *)
Definition group_by_two {T} (list_ : list T) : list (T * T) :=
  zip_shared (iter list_).

Section Extractors.

Context {V : Type}.

Fixpoint find_first_by_key {T} `{PyObj T} (search_key : string)
    (items : list (T * T)) (transform_found : pyobj -> pyres V)
    (not_found : V) : Eff V :=
  match items with
  | [] => ret not_found
  | (k, value) :: items' =>
      if py_eq_str (to_obj k) search_key
      then call transform_found (to_obj value)
      else find_first_by_key search_key items' transform_found not_found
  end.

(** The [then is identity] branch of the source returns the same function
    as the general branch does at [then = identity]; one definition
    covers both.  [removesuffix] is a [str] method. *)
Definition strip_unit (_suffix : string) (then_ : pyobj -> pyres V)
    : pyobj -> pyres V :=
  fun _s =>
    match _s with
    | PStr s => then_ (PStr (PyStr.removesuffix s _suffix))
    | _ => Raise (OtherException "AttributeError")
    end.

Definition extract_standalone_first_field_or_regular_field
    (_result_prefix_len : Z) (name : option string)
    (then_ : pyobj -> pyres V) (else_default : V) : string -> Eff V :=
  match name with
  | None =>
      fun response =>
        let response_items :=
          iter (PyStr.split comma (PyStr.slice_from _result_prefix_len response)) in
        '(first, _) <- lift (next response_items) ;;
        call then_ (PStr first)
  | Some name =>
      fun response =>
        let response_items :=
          iter (PyStr.split comma (PyStr.slice_from _result_prefix_len response)) in
        '(_, response_items) <- lift (next response_items) ;;
        find_first_by_key name (group_by_two response_items) then_ else_default
  end.

Definition extract_first_state_field_or_any_group_prefixed_field
    (_result_prefix_len : Z) (name : string)
    (then_ : pyobj -> pyres V) (else_default : V) : string -> Eff V :=
  fun response =>
    let response_items :=
      iter (PyStr.split comma (PyStr.slice_from _result_prefix_len response)) in
    match
      pyres_bind (next response_items) (fun '(state_key, response_items) =>
      pyres_bind (next response_items) (fun '(state_value, response_items) =>
      Ret (state_key, state_value, response_items)))
    with
    | Raise StopIteration => ret else_default
    | Raise e => raise e
    | Ret (state_key, state_value, response_items) =>
        if String.eqb name state_key then call then_ (PStr state_value)
        else
          match PyStr.split comma name with
          | [param_group; param_name] =>
              match for_break (fun group => String.eqb group param_group)
                              response_items with
              | None => ret else_default
              | Some response_items =>
                  find_first_by_key param_name (group_by_two response_items)
                                    then_ else_default
              end
          | _ => raise ValueError
          end
    end.

Definition extract_regular_field
    (_result_prefix_len : Z) (name : string)
    (then_ : pyobj -> pyres V) (else_default : V) : string -> Eff V :=
  fun response =>
    find_first_by_key name
      (group_by_two (PyStr.split comma (PyStr.slice_from _result_prefix_len response)))
      then_ else_default.

(** In the second branch [items] is the one-element tuple
    [(iter(...),)]: the loop runs over the tuple, so [item] is the
    iterator object, and [group_by_two(items)] iterates the tuple anew. *)
Definition extract_regular_field_before_group_or_group_prefixed_field
    (_group : string) (_result_prefix_len : Z) (name : string)
    (then_ : pyobj -> pyres V) (else_default : V) : string -> Eff V :=
  if negb (PyStr.startswith name (_group ++ ",")) then
    fun response =>
      let items :=
        takewhile (fun str => negb (String.eqb str _group))
          (iter (PyStr.split comma (PyStr.slice_from _result_prefix_len response))) in
      find_first_by_key name (group_by_two items) then_ else_default
  else
    let name := PyStr.slice_from (Z.of_nat (String.length _group) + 1) name in
    fun response =>
      let items : list pyobj :=
        [PIter (iter (PyStr.split comma
                        (PyStr.slice_from _result_prefix_len response)))] in
      match for_break (fun item => py_eq_str item _group) items with
      | None => ret else_default
      | Some _ => find_first_by_key name (group_by_two items) then_ else_default
      end.

End Extractors.

(** ** Dictionaries *)

(** A key type of a [dict]: its [==] decides equality. *)
Class PyKey (K : Type) := {
  key_eqb : K -> K -> bool;
  key_eqb_eq : forall a b : K, key_eqb a b = true <-> a = b
}.

#[global] Instance PyKey_string : PyKey string :=
  {| key_eqb := String.eqb; key_eqb_eq := String.eqb_eq |}.

Module PyDict.

(** A [dict] is the list of its items in insertion order; the keys of a
    well-formed [dict] are pairwise different. *)
Definition dict (K V : Type) : Type := list (K * V).

Definition keys {K V} (d : dict K V) : list K := map fst d.

(** [d.get(k)], [None] for a missing key. *)
Fixpoint getitem_opt {K V} `{PyKey K} (d : dict K V) (k : K) : option V :=
  match d with
  | [] => None
  | (k', v) :: d' => if key_eqb k' k then Some v else getitem_opt d' k
  end.

(** [d.get(k, default)] *)
Definition get {K V} `{PyKey K} (d : dict K V) (k : K) (default : V) : V :=
  match getitem_opt d k with
  | Some v => v
  | None => default
  end.

(** [d[k] = v]: a key that is present keeps its place, a new key goes to
    the end. *)
Fixpoint setitem {K V} `{PyKey K} (d : dict K V) (k : K) (v : V) : dict K V :=
  match d with
  | [] => [(k, v)]
  | (k', v') :: d' =>
      if key_eqb k' k then (k', v) :: d' else (k', v') :: setitem d' k v
  end.

(** [dest.update(src)] *)
Definition update {K V} `{PyKey K} (dest src : dict K V) : dict K V :=
  fold_left (fun d kv => setitem d (fst kv) (snd kv)) src dest.

End PyDict.

(** [l[n:]] on a list. *)
Definition list_slice_from {T} (n : Z) (l : list T) : list T :=
  let len := Z.of_nat (List.length l) in
  let start := if (n <? 0)%Z then Z.max (len + n) 0 else Z.min n len in
  skipn (Z.to_nat start) l.

(** ** The other functions of [_sdg_response_fields] *)

(** As for [strip_unit], the [then is identity] branch is the general
    branch at [then = identity].  Only a [str] can be sliced here. *)
Definition substr_from {V} (_n : Z) (then_ : pyobj -> pyres V)
    : pyobj -> pyres V :=
  fun _s =>
    match _s with
    | PStr s => then_ (PStr (PyStr.slice_from _n s))
    | _ => Raise (OtherException "TypeError")
    end.


Definition merge_dicts {K V} `{PyKey K} (dicts : list (PyDict.dict K V))
    : PyDict.dict K V :=
  let dest : PyDict.dict K V := [] in
  fold_left (fun dest src => PyDict.update dest src) dicts dest.

(** ** The local helpers of [sdg.py] *)

Module Sdg.

Definition strip_unit {V} (unit : string) (then_ : pyobj -> pyres V)
    : pyobj -> pyres V :=
  let len_unit := Z.of_nat (String.length unit) in
  fun value =>
    match value with
    | PStr value =>
        let value :=
          if PyStr.endswith value unit
          then PyStr.slice_to (- len_unit) value
          else value in
        then_ (PStr value)
    | _ => Raise (OtherException "AttributeError")
    end.

(** The loop of [extract_bswv_field]'s [result_func]. *)
Fixpoint extract_bswv_field_loop {V} (name : string)
    (pairs : list (string * string)) (then_ : pyobj -> pyres V)
    (else_default : V) : Eff V :=
  match pairs with
  | [] => ret else_default
  | (key, value) :: pairs' =>
      if String.eqb key name then call then_ (PStr value)
      else extract_bswv_field_loop name pairs' then_ else_default
  end.

(** [cmd_prefix_len] is the variable of the enclosing method the closure
    refers to. *)
Definition extract_bswv_field {V} (cmd_prefix_len : Z) (name : string)
    (then_ : pyobj -> pyres V) (else_default : V) : string -> Eff V :=
  fun response =>
    let response := PyStr.slice_from (cmd_prefix_len + 1) response in
    let values := PyStr.split comma response in
    extract_bswv_field_loop name (zip_shared (iter values)) then_ else_default.

Definition outp_remap : PyDict.dict string string :=
  [("LOAD", "load"); ("PLRT", "polarity"); ("POWERON_STATE", "poweron_state")].

(** [values[0]] raises [IndexError] on an empty list. *)
Definition parse_outp (_skip_prefix : Z) (response : string)
    : pyres (PyDict.dict string string) :=
  let response := PyStr.slice_from _skip_prefix response in
  let values := PyStr.split comma response in
  match values with
  | [] => Raise (OtherException "IndexError")
  | first :: _ =>
      let res : PyDict.dict string string := [("enabled", first)] in
      Ret (fold_left
             (fun res kv =>
                PyDict.setitem res (PyDict.get outp_remap (fst kv) (fst kv)) (snd kv))
             (zip_shared (iter (list_slice_from 1 values)))
             res)
  end.

End Sdg.

(** ** Vocabulary of the statements *)

(** The token sequence [K1; V1; ...; Kn; Vn] of a list of pairs. *)
Definition tokens_of_pairs {T} (kvs : list (T * T)) : list T :=
  flat_map (fun kv => [fst kv; snd kv]) kvs.


(** [o] is what looking [name] up in the pair run of the tokens [run]
    must end with.  The run is pairs [kvs] followed by at most one
    unpaired token.  When [(name, v)] is the first pair of [kvs] with the
    key [name], [o] is the outcome of the one call of the transform on
    [v]; when no pair has the key, [o] is the default, with no call. *)
Definition lookup_outcome {V} (then_ : pyobj -> pyres V) (else_default : V)
    (name : string) (run : list string) (o : Eff V) : Prop :=
  forall (kvs : list (string * string)) (tail : list string),
    run = tokens_of_pairs kvs ++ tail -> (List.length tail <= 1)%nat ->
    (forall pre v post,
       kvs = pre ++ (name, v) :: post -> ~ In name (map fst pre) ->
       o = ([PStr v], then_ (PStr v)))
    /\ (~ In name (map fst kvs) -> o = ([], Ret else_default)).

(** An instance of the transform for the examples: the value of an unsigned
    decimal integer literal, which is all of [float] the examples need. *)
Fixpoint decimal_value (acc : Z) (s : string) : option Z :=
  match s with
  | EmptyString => Some acc
  | String c s' =>
      let d := (Z.of_nat (nat_of_ascii c) - 48)%Z in
      if ((0 <=? d) && (d <=? 9))%Z then decimal_value (10 * acc + d) s'
      else None
  end.

Definition decimal_literal (o : pyobj) : pyres Z :=
  match o with
  | PStr (String c s) =>
      match decimal_value 0 (String c s) with
      | Some z => Ret z
      | None => Raise ValueError
      end
  | _ => Raise ValueError
  end.

(** * Properties *)

(** ** Strings *)

Module PyStrFacts.
Import PyStr.
Local Open Scope string_scope.

Lemma append_empty_r (s : string) : s ++ EmptyString = s.
Proof. induction s as [|c s IH]; simpl; [reflexivity | now rewrite IH]. Qed.

Lemma append_assoc (a b c : string) : (a ++ b) ++ c = a ++ (b ++ c).
Proof. induction a as [|x a IH]; simpl; [reflexivity | now rewrite IH]. Qed.

Lemma length_append (a b : string) :
  String.length (a ++ b) = (String.length a + String.length b)%nat.
Proof. induction a as [|x a IH]; simpl; [reflexivity | now rewrite IH]. Qed.

Lemma drop_length_append (p r : string) : drop (String.length p) (p ++ r) = r.
Proof. induction p as [|c p IH]; simpl; [now destruct r | exact IH]. Qed.

Lemma take_length_append (p r : string) : take (String.length p) (p ++ r) = p.
Proof. induction p as [|c p IH]; simpl; [now destruct r | now rewrite IH]. Qed.

Lemma drop_beyond (n : nat) (s : string) :
  (String.length s <= n)%nat -> drop n s = EmptyString.
Proof.
  revert n; induction s as [|c s IH]; intros [|n] H; simpl in *;
    try reflexivity; try lia.
  apply IH; lia.
Qed.

Lemma take_drop (n : nat) (s : string) : take n s ++ drop n s = s.
Proof.
  revert s; induction n as [|n IH]; intros [|c s]; simpl; try reflexivity.
  now rewrite IH.
Qed.

Lemma length_drop (n : nat) (s : string) :
  String.length (drop n s) = (String.length s - n)%nat.
Proof.
  revert s; induction n as [|n IH]; intros [|c s]; simpl; try reflexivity.
  apply IH.
Qed.

(** The echoed command is cut off exactly. *)
Lemma slice_from_prefix (n : Z) (prefix rest : string) :
  Z.of_nat (String.length prefix) = n ->
  slice_from n (prefix ++ rest) = rest.
Proof.
  intros <-. unfold slice_from.
  destruct (Z.ltb_spec (Z.of_nat (String.length prefix)) 0) as [H|_]; [lia|].
  rewrite length_append, Z.min_l by lia.
  rewrite Nat2Z.id. apply drop_length_append.
Qed.

(** A prefix length past the end of the response leaves nothing. *)
Lemma slice_from_beyond (n : Z) (s : string) :
  (Z.of_nat (String.length s) <= n)%Z -> slice_from n s = EmptyString.
Proof.
  intros H. unfold slice_from.
  destruct (Z.ltb_spec n 0) as [H0|_]; [lia|].
  apply drop_beyond. lia.
Qed.

Lemma slice_to_neg_length_append (stem suffix : string) :
  suffix <> EmptyString ->
  slice_to (- Z.of_nat (String.length suffix)) (stem ++ suffix) = stem.
Proof.
  intros Hne. unfold slice_to.
  assert (0 < String.length suffix)%nat by (destruct suffix; simpl; [congruence | lia]).
  destruct (Z.ltb_spec (- Z.of_nat (String.length suffix)) 0) as [_|H0]; [|lia].
  rewrite length_append.
  replace (Z.to_nat _) with (String.length stem) by lia.
  apply take_length_append.
Qed.

Lemma endswith_append (stem suffix : string) : endswith (stem ++ suffix) suffix = true.
Proof.
  unfold endswith. rewrite length_append.
  replace (String.length stem + String.length suffix - String.length suffix)%nat
    with (String.length stem) by lia.
  rewrite drop_length_append, String.eqb_refl.
  rewrite andb_true_r. apply Nat.leb_le. lia.
Qed.

Lemma endswith_inv (s suffix : string) :
  endswith s suffix = true -> exists stem, s = stem ++ suffix.
Proof.
  unfold endswith. intros H. apply andb_true_iff in H as [_ H].
  apply String.eqb_eq in H.
  set (k := (String.length s - String.length suffix)%nat) in H.
  exists (take k s). rewrite <- H. symmetry. apply take_drop.
Qed.

Lemma endswith_iff (s suffix : string) :
  endswith s suffix = true <-> exists stem, s = stem ++ suffix.
Proof.
  split; [apply endswith_inv | intros [stem ->]; apply endswith_append].
Qed.

Lemma removesuffix_hit (stem suffix : string) :
  removesuffix (stem ++ suffix) suffix = stem.
Proof.
  unfold removesuffix. destruct (String.eqb_spec suffix EmptyString) as [->|Hne]; simpl.
  - apply append_empty_r.
  - rewrite endswith_append. now apply slice_to_neg_length_append.
Qed.

Lemma removesuffix_miss (s suffix : string) :
  endswith s suffix = false -> removesuffix s suffix = s.
Proof. unfold removesuffix. intros ->. now rewrite andb_false_r. Qed.

(** *** [split] and [join] *)

Lemma split_not_nil (sep : ascii) (s : string) : split sep s <> [].
Proof.
  induction s as [|c s IH]; simpl; [discriminate|].
  destruct (Ascii.eqb c sep); [discriminate|].
  destruct (split sep s); [contradiction | discriminate].
Qed.

Lemma sep_free_cons (sep c : ascii) (s : string) :
  sep_free sep (String c s) <-> Ascii.eqb c sep = false /\ sep_free sep s.
Proof.
  unfold sep_free; simpl. destruct (Ascii.eqb c sep); simpl; split.
  - discriminate.
  - intros [? _]; discriminate.
  - auto.
  - tauto.
Qed.

(** No token of a split holds the separator. *)
Lemma split_sep_free (sep : ascii) (s : string) :
  Forall (sep_free sep) (split sep s).
Proof.
  induction s as [|c s IH]; simpl.
  - repeat constructor.
  - destruct (Ascii.eqb c sep) eqn:E.
    + constructor; [reflexivity | exact IH].
    + destruct (split sep s) as [|tok toks].
      * constructor; [|constructor]. apply sep_free_cons. now split.
      * inversion IH; subst. constructor; [|assumption].
        apply sep_free_cons. now split.
Qed.

Lemma length_split (sep : ascii) (s : string) :
  List.length (split sep s) = S (count_char sep s).
Proof.
  induction s as [|c s IH]; simpl; [reflexivity|].
  destruct (Ascii.eqb c sep); simpl.
  - now rewrite IH.
  - pose proof (split_not_nil sep s).
    destruct (split sep s); [contradiction | exact IH].
Qed.

Lemma split_token_sep (sep : ascii) (t rest : string) :
  sep_free sep t ->
  split sep (t ++ String sep rest) = t :: split sep rest.
Proof.
  induction t as [|c t IH]; intros Hfree; simpl.
  - now rewrite Ascii.eqb_refl.
  - apply sep_free_cons in Hfree as [Hc Hfree].
    rewrite Hc, IH by assumption. reflexivity.
Qed.

Lemma split_token (sep : ascii) (t : string) :
  sep_free sep t -> split sep t = [t].
Proof.
  induction t as [|c t IH]; intros Hfree; simpl; [reflexivity|].
  apply sep_free_cons in Hfree as [Hc Hfree].
  rewrite Hc, IH by assumption. reflexivity.
Qed.

(** Splitting the joined tokens gives the tokens back. *)
Lemma split_join (sep : ascii) (toks : list string) :
  toks <> [] -> Forall (sep_free sep) toks ->
  split sep (join sep toks) = toks.
Proof.
  induction toks as [|t toks IH]; intros Hne Hfree; [contradiction|].
  inversion Hfree as [|? ? Ht Htoks]; subst.
  destruct toks as [|t' toks].
  - simpl. now apply split_token.
  - change (join sep (t :: t' :: toks))
      with (t ++ String sep (join sep (t' :: toks))).
    rewrite split_token_sep by assumption.
    rewrite IH; [reflexivity | discriminate | assumption].
Qed.

Lemma split_empty (sep : ascii) : split sep EmptyString = [EmptyString].
Proof. reflexivity. Qed.

Lemma startswith_append (p r : string) : startswith (p ++ r) p = true.
Proof.
  induction p as [|c p IH]; simpl; [now destruct r|].
  now rewrite Ascii.eqb_refl, IH.
Qed.

Lemma count_char_append (c : ascii) (a b : string) :
  count_char c (a ++ b) = (count_char c a + count_char c b)%nat.
Proof. induction a as [|x a IH]; simpl; [reflexivity | rewrite IH; lia]. Qed.

End PyStrFacts.

(** ** Pair scanning *)

Section PairScanner.

Context {T : Type}.

Lemma list_pair_ind (P : list T -> Prop) :
  P [] -> (forall x, P [x]) -> (forall a b l, P l -> P (a :: b :: l)) ->
  forall l, P l.
Proof.
  intros Hnil Hone Hstep.
  fix IH 1. intros [|a [|b l]]; [exact Hnil | apply Hone |].
  apply Hstep, IH.
Qed.

Lemma group_by_two_tokens_of_pairs (kvs : list (T * T)) :
  group_by_two (tokens_of_pairs kvs) = kvs.
Proof.
  induction kvs as [|[k v] kvs IH]; [reflexivity|].
  unfold group_by_two, iter in *. simpl. now rewrite IH.
Qed.

Lemma group_by_two_dangling (kvs : list (T * T)) (x : T) :
  group_by_two (tokens_of_pairs kvs ++ [x]) = kvs.
Proof.
  induction kvs as [|[k v] kvs IH]; [reflexivity|].
  unfold group_by_two, iter in *. simpl. now rewrite IH.
Qed.

Lemma tokens_of_group_by_two (l : list T) :
  tokens_of_pairs (group_by_two l) = firstn (2 * Nat.div2 (List.length l)) l.
Proof.
  induction l as [| x | a b l IH] using list_pair_ind; try reflexivity.
  unfold group_by_two, iter in *. cbn [zip_shared tokens_of_pairs flat_map fst snd app].
  cbn [List.length Nat.div2].
  replace (2 * S (Nat.div2 (List.length l)))%nat
    with (S (S (2 * Nat.div2 (List.length l)))) by lia.
  cbn [firstn]. now rewrite <- IH.
Qed.

Lemma length_group_by_two (l : list T) :
  List.length (group_by_two l) = Nat.div2 (List.length l).
Proof.
  induction l as [| x | a b l IH] using list_pair_ind; try reflexivity.
  unfold group_by_two, iter in *. simpl. now rewrite IH.
Qed.

Lemma group_by_two_In (l : list T) (k v : T) :
  In (k, v) (group_by_two l) -> In k l /\ In v l.
Proof.
  induction l as [| x | a b l IH] using list_pair_ind; try contradiction.
  unfold group_by_two, iter in *. simpl.
  intros [E | H]; [inversion E; subst; tauto | apply IH in H; tauto].
Qed.

End PairScanner.

Section FirstByKey.

Context {V : Type}.
Variable then_ : pyobj -> pyres V.
Variable else_default : V.

Lemma find_first_by_key_absent (key : string) (items : list (string * string)) :
  ~ In key (map fst items) ->
  find_first_by_key key items then_ else_default = ([], Ret else_default).
Proof.
  induction items as [|[k v] items IH]; intros Hnot; [reflexivity|].
  simpl in *. unfold to_obj, PyObj_string. simpl.
  destruct (String.eqb_spec k key) as [->|_]; [tauto|].
  apply IH. tauto.
Qed.

(** The first pair with the key decides, whatever follows it. *)
Lemma find_first_by_key_first (key value : string) (pre post : list (string * string)) :
  ~ In key (map fst pre) ->
  find_first_by_key key (pre ++ (key, value) :: post) then_ else_default
  = ([PStr value], then_ (PStr value)).
Proof.
  induction pre as [|[k v] pre IH]; intros Hnot; simpl in *;
    unfold to_obj, PyObj_string; simpl.
  - now rewrite String.eqb_refl.
  - destruct (String.eqb_spec k key) as [->|_]; [tauto|].
    apply IH. tauto.
Qed.


Lemma in_nodup_keys_split (key value : string) (kvs : list (string * string)) :
  NoDup (map fst kvs) -> In (key, value) kvs ->
  exists pre post, kvs = pre ++ (key, value) :: post /\ ~ In key (map fst pre).
Proof.
  intros Hnd Hin. apply in_split in Hin as (pre & post & ->).
  exists pre, post. split; [reflexivity|].
  rewrite map_app in Hnd. simpl in Hnd.
  apply NoDup_remove_2 in Hnd. intros Hpre. apply Hnd, in_or_app. now left.
Qed.



End FirstByKey.

(** ** Responses of a given shape *)

Section Responses.

Import PyStr PyStrFacts.

(** The tokens of ["<prefix>T1,T2,...,Tn"], [n >= 1]. *)
Lemma tokens_of_response (prefixLen : Z) (prefix : string) (toks : list string) :
  Z.of_nat (String.length prefix) = prefixLen ->
  toks <> [] -> Forall comma_free toks ->
  split comma (slice_from prefixLen (prefix ++ join comma toks)) = toks.
Proof.
  intros Hlen Hne Hfree.
  rewrite slice_from_prefix by exact Hlen. now apply split_join.
Qed.

(** The pair run of ["<prefix>K1,V1,...,Kn,Vn"], [n >= 0]. *)
Lemma pairs_of_response (prefixLen : Z) (prefix : string) (kvs : list (string * string)) :
  Z.of_nat (String.length prefix) = prefixLen ->
  Forall comma_free (tokens_of_pairs kvs) ->
  group_by_two
    (split comma (slice_from prefixLen (prefix ++ join comma (tokens_of_pairs kvs))))
  = kvs.
Proof.
  intros Hlen Hfree. destruct kvs as [|kv kvs].
  - simpl. rewrite slice_from_prefix by exact Hlen. reflexivity.
  - rewrite tokens_of_response; try assumption; [|discriminate].
    apply group_by_two_tokens_of_pairs.
Qed.

(** Every response has a first token. *)
Lemma response_has_first_token (prefixLen : Z) (response : string) :
  exists first rest,
    split comma (slice_from prefixLen response) = first :: rest.
Proof.
  pose proof (split_not_nil comma (slice_from prefixLen response)) as H.
  destruct (split comma (slice_from prefixLen response)) as [|first rest];
    [contradiction | now exists first, rest].
Qed.

End Responses.

(** ** The flat-pairs strategy *)

(** C2. On a response ["<prefix>K1,V1,...,Kn,Vn"] whose prefix has the
    configured length and whose keys are pairwise distinct, the extractor
    of [extract_regular_field] for a key [Ki] returns the transform of [Vi]
    (calling the transform on [Vi] only), and the extractor for a key that
    is not among the [Ki] returns the default. *)
Theorem extract_regular_field_lookup {V : Type}
    (then_ : pyobj -> pyres V) (else_default : V)
    (prefixLen : Z) (prefix : string) (kvs : list (string * string)) :
  Z.of_nat (String.length prefix) = prefixLen ->
  NoDup (map fst kvs) ->
  Forall comma_free (tokens_of_pairs kvs) ->
  let response := (prefix ++ PyStr.join comma (tokens_of_pairs kvs))%string in
  (forall k v, In (k, v) kvs ->
     extract_regular_field prefixLen k then_ else_default response
     = ([PStr v], then_ (PStr v)))
  /\ (forall k, ~ In k (map fst kvs) ->
        extract_regular_field prefixLen k then_ else_default response
        = ([], Ret else_default)).
Proof.
  intros Hlen Hnd Hfree response. unfold extract_regular_field, response.
  rewrite pairs_of_response by assumption. split.
  - intros k v Hin.
    destruct (in_nodup_keys_split k v kvs Hnd Hin) as (pre & post & -> & Hpre).
    now apply find_first_by_key_first.
  - intros k Hnot. now apply find_first_by_key_absent.
Qed.

Lemma extract_regular_field_lookup_witness :
  extract_regular_field 8 "FRQ" identity PNone "C1:BSWV WVTP,SINE,FRQ,1000HZ"
  = ([PStr "1000HZ"], Ret (PStr "1000HZ"))
  /\ extract_regular_field 8 "AMP" identity PNone "C1:BSWV WVTP,SINE,FRQ,1000HZ"
     = ([], Ret PNone).
Proof.
  assert (Hnd : NoDup (map fst [("WVTP", "SINE"); ("FRQ", "1000HZ")])).
  { repeat constructor; simpl; intuition discriminate. }
  assert (Hfree : Forall comma_free
                    (tokens_of_pairs [("WVTP", "SINE"); ("FRQ", "1000HZ")])).
  { repeat constructor. }
  destruct (extract_regular_field_lookup identity PNone 8 "C1:BSWV "
              [("WVTP", "SINE"); ("FRQ", "1000HZ")] eq_refl Hnd Hfree)
    as [Hhit Hmiss].
  split.
  - apply (Hhit "FRQ" "1000HZ"). simpl. auto.
  - apply (Hmiss "AMP"). simpl. intuition discriminate.
Defined.

(** C3. First match wins: in a pair run where a key occurs more than once,
    the lookup returns the transform of the value of the first occurrence
    and calls the transform on that value only; so the extractor of
    [extract_regular_field] for [K] on ["<prefix>K,V1,K,V2"] returns the
    transform of [V1]. *)
Theorem find_first_by_key_first_match_wins {V : Type}
    (then_ : pyobj -> pyres V) (else_default : V) :
  (forall (K V1 V2 : string) (pre mid post : list (string * string)),
     ~ In K (map fst pre) ->
     find_first_by_key K (pre ++ (K, V1) :: mid ++ (K, V2) :: post)
       then_ else_default
     = ([PStr V1], then_ (PStr V1)))
  /\ (forall (prefixLen : Z) (prefix K V1 V2 : string),
        Z.of_nat (String.length prefix) = prefixLen ->
        comma_free K -> comma_free V1 -> comma_free V2 ->
        extract_regular_field prefixLen K then_ else_default
          (prefix ++ PyStr.join comma [K; V1; K; V2])
        = ([PStr V1], then_ (PStr V1))).
Proof.
  split.
  - intros K V1 V2 pre mid post Hpre. now apply find_first_by_key_first.
  - intros prefixLen prefix K V1 V2 Hlen HK HV1 HV2.
    unfold extract_regular_field.
    change [K; V1; K; V2] with (tokens_of_pairs [(K, V1); (K, V2)]).
    rewrite (pairs_of_response prefixLen prefix [(K, V1); (K, V2)] Hlen)
      by (repeat constructor; assumption).
    apply (find_first_by_key_first then_ else_default K V1 [] [(K, V2)]).
    intros [].
Qed.

Lemma find_first_by_key_first_match_wins_witness :
  find_first_by_key "FRQ" ([("WVTP", "SINE")] ++ ("FRQ", "10") :: [] ++ ("FRQ", "20") :: [])
    identity PNone
  = ([PStr "10"], Ret (PStr "10"))
  /\ extract_regular_field 8 "K" identity PNone "<prefix>K,V1,K,V2"
     = ([PStr "V1"], Ret (PStr "V1")).
Proof.
  split.
  - apply (proj1 (find_first_by_key_first_match_wins identity PNone)
             "FRQ" "10" "20" [("WVTP", "SINE")] [] []).
    simpl. intuition discriminate.
  - apply (proj2 (find_first_by_key_first_match_wins identity PNone)
             8%Z "<prefix>" "K" "V1" "V2"); reflexivity.
Defined.

(** C4. Only complete pairs: on [2n+1] tokens [group_by_two] yields the [n]
    pairs made of the first [2n] tokens and nothing for the last token; so
    the extractor of [extract_regular_field] for [K2] on
    ["<prefix>K1,V1,K2"] returns the default and never calls the
    transform. *)
Theorem group_by_two_drops_dangling_token {V : Type}
    (then_ : pyobj -> pyres V) (else_default : V) :
  (forall (T : Type) (tokens : list T) (n : nat),
     List.length tokens = (2 * n + 1)%nat ->
     List.length (group_by_two tokens) = n
     /\ tokens_of_pairs (group_by_two tokens) = firstn (2 * n) tokens)
  /\ (forall (prefixLen : Z) (prefix K1 V1 K2 : string),
        Z.of_nat (String.length prefix) = prefixLen ->
        comma_free K1 -> comma_free V1 -> comma_free K2 -> K1 <> K2 ->
        extract_regular_field prefixLen K2 then_ else_default
          (prefix ++ PyStr.join comma [K1; V1; K2])
        = ([], Ret else_default)).
Proof.
  split.
  - intros T tokens n Hlen.
    assert (Hdiv : Nat.div2 (List.length tokens) = n).
    { rewrite Hlen. replace (2 * n + 1)%nat with (S (2 * n)) by lia.
      apply Nat.div2_succ_double. }
    rewrite length_group_by_two, tokens_of_group_by_two, Hdiv. now split.
  - intros prefixLen prefix K1 V1 K2 Hlen HK1 HV1 HK2 Hneq.
    unfold extract_regular_field.
    rewrite (tokens_of_response prefixLen prefix [K1; V1; K2] Hlen)
      by (try discriminate; repeat constructor; assumption).
    change [K1; V1; K2] with (tokens_of_pairs [(K1, V1)] ++ [K2]).
    rewrite group_by_two_dangling.
    apply find_first_by_key_absent. simpl. tauto.
Qed.

Lemma group_by_two_drops_dangling_token_witness :
  (List.length (group_by_two ["K1"; "V1"; "K2"]) = 1%nat
   /\ tokens_of_pairs (group_by_two ["K1"; "V1"; "K2"])
      = firstn (2 * 1) ["K1"; "V1"; "K2"])
  /\ extract_regular_field 8 "K2" identity PNone "<prefix>K1,V1,K2"
     = ([], Ret PNone).
Proof.
  split.
  - apply (proj1 (group_by_two_drops_dangling_token identity PNone)
             string ["K1"; "V1"; "K2"] 1%nat). reflexivity.
  - apply (proj2 (group_by_two_drops_dangling_token identity PNone)
             8%Z "<prefix>" "K1" "V1" "K2"); try reflexivity. discriminate.
Defined.

(** ** The state-or-group strategy *)

Section GroupScan.

Import PyStr PyStrFacts.

Lemma for_break_absent (group : string) (it : list string) :
  ~ In group it -> for_break (fun g => String.eqb g group) it = None.
Proof.
  induction it as [|x it IH]; intros Hnot; [reflexivity|]. simpl in *.
  destruct (String.eqb_spec x group) as [->|_]; [tauto | apply IH; tauto].
Qed.

(** The scan stops at the first bare token equal to the marker and leaves
    the iterator just after it. *)
Lemma for_break_first (group : string) (pre post : list string) :
  ~ In group pre ->
  for_break (fun g => String.eqb g group) (pre ++ group :: post) = Some post.
Proof.
  induction pre as [|x pre IH]; intros Hnot; simpl in *.
  - now rewrite String.eqb_refl.
  - destruct (String.eqb_spec x group) as [->|_]; [tauto | apply IH; tauto].
Qed.


Lemma split_compound_path (group param : string) :
  comma_free group -> comma_free param ->
  split comma (group ++ "," ++ param) = [group; param].
Proof.
  intros Hg Hp. change (group ++ "," ++ param)%string
    with (group ++ String comma param)%string.
  rewrite split_token_sep by exact Hg. now rewrite split_token.
Qed.

Lemma compound_path_not_token (group param token : string) :
  comma_free token -> (group ++ "," ++ param)%string <> token.
Proof.
  intros Hfree <-. unfold comma_free, sep_free in Hfree.
  rewrite count_char_append in Hfree. simpl in Hfree. lia.
Qed.

Context {V : Type}.
Variable then_ : pyobj -> pyres V.
Variable else_default : V.

(** The extractor on a response with at least two tokens. *)
Lemma state_or_group_two_tokens (prefixLen : Z) (name response : string)
    (state_key state_value : string) (rest : list string) :
  split comma (slice_from prefixLen response) = state_key :: state_value :: rest ->
  extract_first_state_field_or_any_group_prefixed_field
    prefixLen name then_ else_default response
  = if String.eqb name state_key then call then_ (PStr state_value)
    else match split comma name with
         | [param_group; param_name] =>
             match for_break (fun g => String.eqb g param_group) rest with
             | None => ret else_default
             | Some items =>
                 find_first_by_key param_name (group_by_two items)
                   then_ else_default
             end
         | _ => raise ValueError
         end.
Proof.
  intros Htok. unfold extract_first_state_field_or_any_group_prefixed_field, iter.
  rewrite Htok. reflexivity.
Qed.

Lemma state_or_group_short (prefixLen : Z) (name response : string) :
  (List.length (split comma (slice_from prefixLen response)) < 2)%nat ->
  extract_first_state_field_or_any_group_prefixed_field
    prefixLen name then_ else_default response
  = ([], Ret else_default).
Proof.
  intros Hlen. unfold extract_first_state_field_or_any_group_prefixed_field, iter.
  destruct (split comma (slice_from prefixLen response)) as [|a [|b rest]];
    try reflexivity.
  simpl in Hlen. lia.
Qed.

End GroupScan.

(** C5. The extractor of
    [extract_first_state_field_or_any_group_prefixed_field]: with fewer
    than two tokens after the prefix it returns the default; with at least
    two tokens and the field path equal to the first token it returns the
    transform of the second token; for a compound path [group,param] it
    scans the tokens after the first two for a bare token equal to [group],
    returns the default when there is none, and otherwise looks [param] up
    in the pair run of the tokens after the first such token (the
    transform of the first match, the default when [param] is not a key
    there). *)
Theorem extract_first_state_field_or_any_group_prefixed_field_spec {V : Type}
    (then_ : pyobj -> pyres V) (else_default : V)
    (prefixLen : Z) (name response : string) :
  let tokens := PyStr.split comma (PyStr.slice_from prefixLen response) in
  let result :=
    extract_first_state_field_or_any_group_prefixed_field
      prefixLen name then_ else_default response in
  ((List.length tokens < 2)%nat -> result = ([], Ret else_default))
  /\ (forall state_value rest,
        tokens = name :: state_value :: rest ->
        result = ([PStr state_value], then_ (PStr state_value)))
  /\ (forall group param state_key state_value rest,
        name = (group ++ "," ++ param)%string ->
        comma_free group -> comma_free param ->
        tokens = state_key :: state_value :: rest ->
        (~ In group rest -> result = ([], Ret else_default))
        /\ (forall pre post,
              rest = pre ++ group :: post -> ~ In group pre ->
              result = find_first_by_key param (group_by_two post)
                         then_ else_default
              /\ (~ In param (map fst (group_by_two post)) ->
                  result = ([], Ret else_default))
              /\ (forall before value after,
                    group_by_two post = before ++ (param, value) :: after ->
                    ~ In param (map fst before) ->
                    result = ([PStr value], then_ (PStr value))))).
Proof.
  intros tokens result. split; [|split].
  - apply state_or_group_short.
  - intros state_value rest Htok. unfold result.
    rewrite (state_or_group_two_tokens _ _ _ _ _ _ _ _ Htok).
    now rewrite String.eqb_refl.
  - intros group param state_key state_value rest -> Hg Hp Htok.
    assert (Hres : result
                   = match for_break (fun g => String.eqb g group) rest with
                     | None => ret else_default
                     | Some items =>
                         find_first_by_key param (group_by_two items)
                           then_ else_default
                     end).
    { unfold result. rewrite (state_or_group_two_tokens _ _ _ _ _ _ _ _ Htok).
      destruct (String.eqb_spec (group ++ "," ++ param) state_key) as [E|_].
      - exfalso. apply (compound_path_not_token group param state_key); [|exact E].
        pose proof (PyStrFacts.split_sep_free comma
                      (PyStr.slice_from prefixLen response)) as Hall.
        fold tokens in Hall. rewrite Htok in Hall. now inversion Hall.
      - now rewrite split_compound_path. }
    split.
    + intros Hnot. rewrite Hres, for_break_absent by exact Hnot. reflexivity.
    + intros pre post -> Hpre. rewrite for_break_first in Hres by exact Hpre.
      split; [exact Hres | split].
      * intros Hnot. rewrite Hres. now apply find_first_by_key_absent.
      * intros before value after Hrun Hbefore. rewrite Hres, Hrun.
        now apply find_first_by_key_first.
Qed.

Lemma extract_first_state_field_or_any_group_prefixed_field_spec_witness :
  extract_first_state_field_or_any_group_prefixed_field 8 "STATE" identity PNone
    "C1:MDWV "
  = ([], Ret PNone)
  /\ extract_first_state_field_or_any_group_prefixed_field 8 "STATE" identity PNone
       "C1:MDWV STATE,ON,AM,FRQ,100"
     = ([PStr "ON"], Ret (PStr "ON"))
  /\ extract_first_state_field_or_any_group_prefixed_field 8 "XX,FRQ" identity PNone
       "C1:MDWV STATE,ON,AM,FRQ,100"
     = ([], Ret PNone)
  /\ extract_first_state_field_or_any_group_prefixed_field 8 "AM,FRQ" identity PNone
       "C1:MDWV STATE,ON,AM,FRQ,100"
     = ([PStr "100"], Ret (PStr "100")).
Proof.
  split; [|split; [|split]].
  - apply (proj1 (extract_first_state_field_or_any_group_prefixed_field_spec
                    identity PNone 8 "STATE" "C1:MDWV ")).
    simpl. lia.
  - apply (proj1 (proj2 (extract_first_state_field_or_any_group_prefixed_field_spec
                           identity PNone 8 "STATE" "C1:MDWV STATE,ON,AM,FRQ,100"))
             "ON" ["AM"; "FRQ"; "100"]).
    reflexivity.
  - apply (proj1 (proj2 (proj2
             (extract_first_state_field_or_any_group_prefixed_field_spec
                identity PNone 8 "XX,FRQ" "C1:MDWV STATE,ON,AM,FRQ,100"))
             "XX" "FRQ" "STATE" "ON" ["AM"; "FRQ"; "100"]
             eq_refl eq_refl eq_refl eq_refl)).
    simpl. intuition discriminate.
  - apply (proj2 (proj2 (proj2 (proj2 (proj2
             (extract_first_state_field_or_any_group_prefixed_field_spec
                identity PNone 8 "AM,FRQ" "C1:MDWV STATE,ON,AM,FRQ,100"))
             "AM" "FRQ" "STATE" "ON" ["AM"; "FRQ"; "100"]
             eq_refl eq_refl eq_refl eq_refl)
             [] ["FRQ"; "100"] eq_refl (fun H => H)))
             [] "100" [] eq_refl (fun H => H)).
Defined.

(** C10. The field path of the state-or-group strategy is not checked when
    the extractor is built: the extractor for a path with no comma, or with
    more than one, still returns the default on a response with fewer than
    two tokens, and on a response with at least two tokens whose first
    token differs from the path it raises [ValueError] (from unpacking
    [name.split(",")]) without calling the transform. *)
Theorem extract_first_state_field_or_any_group_prefixed_field_malformed_path
    {V : Type} (then_ : pyobj -> pyres V) (else_default : V)
    (prefixLen : Z) (name response : string)
    (state_key state_value : string) (rest : list string) :
  PyStr.count_char comma name <> 1%nat ->
  PyStr.split comma (PyStr.slice_from prefixLen response)
  = state_key :: state_value :: rest ->
  name <> state_key ->
  extract_first_state_field_or_any_group_prefixed_field
    prefixLen name then_ else_default response
  = ([], Raise ValueError)
  /\ (forall short,
        (List.length (PyStr.split comma (PyStr.slice_from prefixLen short)) < 2)%nat ->
        extract_first_state_field_or_any_group_prefixed_field
          prefixLen name then_ else_default short
        = ([], Ret else_default)).
Proof.
  intros Hcount Htok Hneq. split; [|intros short; apply state_or_group_short].
  rewrite (state_or_group_two_tokens _ _ _ _ _ _ _ _ Htok).
  destruct (String.eqb_spec name state_key) as [E|_]; [contradiction|].
  pose proof (PyStrFacts.length_split comma name) as Hlen.
  destruct (PyStr.split comma name) as [|a [|b [|c l]]]; try reflexivity.
  simpl in Hlen. congruence.
Qed.

Lemma extract_first_state_field_or_any_group_prefixed_field_malformed_path_witness :
  extract_first_state_field_or_any_group_prefixed_field 8 "FRQ" identity PNone
    "C1:MDWV STATE,ON,AM,FRQ,100"
  = ([], Raise ValueError)
  /\ (forall short,
        (List.length (PyStr.split comma (PyStr.slice_from 8 short)) < 2)%nat ->
        extract_first_state_field_or_any_group_prefixed_field 8 "FRQ" identity PNone
          short
        = ([], Ret PNone)).
Proof.
  apply (extract_first_state_field_or_any_group_prefixed_field_malformed_path
           identity PNone 8 "FRQ" "C1:MDWV STATE,ON,AM,FRQ,100"
           "STATE" "ON" ["AM"; "FRQ"; "100"]).
  - simpl. discriminate.
  - reflexivity.
  - discriminate.
Defined.

(** ** The scalar-or-pairs strategy *)

Lemma bind_lift_ret {A B : Type} (a : A) (k : A -> Eff B) :
  bind (lift (Ret a)) k = k a.
Proof. unfold bind, lift. now destruct (k a). Qed.

Lemma bind_lift_raise {A B : Type} (e : exn) (k : A -> Eff B) :
  bind (lift (Raise e)) k = ([], Raise e).
Proof. reflexivity. Qed.

Section ScalarOrPairs.

Import PyStr.

Context {V : Type}.
Variable then_ : pyobj -> pyres V.
Variable else_default : V.

Lemma standalone_first_field (prefixLen : Z) (response first : string)
    (rest : list string) :
  split comma (slice_from prefixLen response) = first :: rest ->
  extract_standalone_first_field_or_regular_field
    prefixLen None then_ else_default response
  = ([PStr first], then_ (PStr first)).
Proof.
  intros Htok. unfold extract_standalone_first_field_or_regular_field, iter.
  rewrite Htok. simpl next. now rewrite bind_lift_ret.
Qed.

Lemma standalone_regular_field (prefixLen : Z) (name response first : string)
    (rest : list string) :
  split comma (slice_from prefixLen response) = first :: rest ->
  extract_standalone_first_field_or_regular_field
    prefixLen (Some name) then_ else_default response
  = find_first_by_key name (group_by_two rest) then_ else_default.
Proof.
  intros Htok. unfold extract_standalone_first_field_or_regular_field, iter.
  rewrite Htok. simpl next. now rewrite bind_lift_ret.
Qed.

End ScalarOrPairs.

(** The first token is dropped even when it is the requested key. *)
Example standalone_first_token_is_not_a_key :
  extract_standalone_first_field_or_regular_field 8 (Some "K") identity PNone
    "<prefix>K,A,V"
  = ([], Ret PNone)
  /\ extract_standalone_first_field_or_regular_field 8 (Some "K") identity PNone
       "<prefix>K,K,V"
     = ([PStr "V"], Ret (PStr "V"))
  /\ extract_standalone_first_field_or_regular_field 8 None identity PNone
       "<prefix>K,K,V"
     = ([PStr "K"], Ret (PStr "K")).
Proof. repeat split. Qed.

(** ** The prefix-then-group strategy *)

Section PrefixThenGroup.

Import PyStr.

Context {V : Type}.
Variable then_ : pyobj -> pyres V.
Variable else_default : V.


Lemma before_group_simple_path (_group : string) (prefixLen : Z)
    (name response : string) :
  startswith name (_group ++ ",") = false ->
  extract_regular_field_before_group_or_group_prefixed_field
    _group prefixLen name then_ else_default response
  = find_first_by_key name
      (group_by_two
         (takewhile (fun str => negb (String.eqb str _group))
            (split comma (slice_from prefixLen response))))
      then_ else_default.
Proof.
  intros Hsw. unfold extract_regular_field_before_group_or_group_prefixed_field.
  now rewrite Hsw.
Qed.

(** In the branch for a group-prefixed path the loop runs over the
    one-element tuple holding the iterator; the iterator object is not
    equal to the marker, the loop ends without [break], and the [else]
    clause returns the default: whatever the response. *)
Lemma group_prefixed_path_always_default (_group : string) (prefixLen : Z)
    (name response : string) :
  startswith name (_group ++ ",") = true ->
  extract_regular_field_before_group_or_group_prefixed_field
    _group prefixLen name then_ else_default response
  = ([], Ret else_default).
Proof.
  intros Hsw. unfold extract_regular_field_before_group_or_group_prefixed_field.
  now rewrite Hsw.
Qed.

End PrefixThenGroup.

(** C1. With marker ["CARR"], a prefix of the configured length and the
    response ["<prefix>A,1,CARR,B,2"], the extractor of
    [extract_regular_field_before_group_or_group_prefixed_field] for the
    path ["CARR,B"] returns the default ([None]) and never calls the
    transform; it does not return ["2"]. *)
Theorem group_prefixed_field_CARR_B_returns_default :
  extract_regular_field_before_group_or_group_prefixed_field
    "CARR" 8 "CARR,B" identity PNone "<prefix>A,1,CARR,B,2"
  = ([], Ret PNone)
  /\ extract_regular_field_before_group_or_group_prefixed_field
       "CARR" 8 "CARR,B" identity PNone "<prefix>A,1,CARR,B,2"
     <> ([PStr "2"], Ret (PStr "2")).
Proof. split; [reflexivity | discriminate]. Qed.

(** The field before the group is found by the other branch, and the
    state-or-group strategy finds a group-prefixed field by scanning the
    iterator itself. *)
Example regular_field_before_group_A :
  extract_regular_field_before_group_or_group_prefixed_field
    "CARR" 8 "A" identity PNone "<prefix>A,1,CARR,B,2"
  = ([PStr "1"], Ret (PStr "1"))
  /\ extract_first_state_field_or_any_group_prefixed_field
       8 "CARR,B" identity PNone "<prefix>A,1,CARR,B,2"
     = ([PStr "2"], Ret (PStr "2")).
Proof. split; reflexivity. Qed.

(** ** The transform and the default *)

Section TransformOnce.

Import PyStr PyStrFacts.

Context {V : Type}.
Variable then_ : pyobj -> pyres V.
Variable else_default : V.
Variable prefixLen : Z.
Variable response : string.

Let tokens := split comma (slice_from prefixLen response).






End TransformOnce.

(** ** A response with nothing after the prefix *)

(** C9. When nothing is left of the response after the prefix (in
    particular when the prefix length is at least the length of the
    response), every lookup extractor returns the default: it neither
    raises nor calls the transform. *)
Theorem empty_remainder_returns_default {V : Type}
    (then_ : pyobj -> pyres V) (else_default : V)
    (prefixLen : Z) (response : string) (_group name path field : string) :
  (Z.of_nat (String.length response) <= prefixLen)%Z
  \/ PyStr.slice_from prefixLen response = EmptyString ->
  extract_regular_field prefixLen name then_ else_default response
  = ([], Ret else_default)
  /\ extract_regular_field_before_group_or_group_prefixed_field
       _group prefixLen name then_ else_default response
     = ([], Ret else_default)
  /\ extract_first_state_field_or_any_group_prefixed_field
       prefixLen path then_ else_default response
     = ([], Ret else_default)
  /\ extract_standalone_first_field_or_regular_field
       prefixLen (Some field) then_ else_default response
     = ([], Ret else_default).
Proof.
  intros H.
  assert (Hrem : PyStr.slice_from prefixLen response = EmptyString).
  { destruct H as [H | H]; [now apply PyStrFacts.slice_from_beyond | exact H]. }
  assert (Htok : PyStr.split comma (PyStr.slice_from prefixLen response)
                 = [EmptyString]) by now rewrite Hrem.
  split; [|split; [|split]].
  - unfold extract_regular_field. now rewrite Htok.
  - destruct (PyStr.startswith name (_group ++ ",")) eqn:Hsw.
    + now apply group_prefixed_path_always_default.
    + rewrite before_group_simple_path by exact Hsw. rewrite Htok.
      cbn [takewhile].
      destruct (negb (String.eqb EmptyString _group)); reflexivity.
  - apply state_or_group_short. rewrite Htok. simpl. lia.
  - now rewrite (standalone_regular_field _ _ _ _ _ _ _ Htok).
Qed.

Lemma empty_remainder_returns_default_witness :
  extract_regular_field 8 "FRQ" identity PNone "C1:"
  = ([], Ret PNone)
  /\ extract_regular_field_before_group_or_group_prefixed_field
       "CARR" 8 "FRQ" identity PNone "C1:"
     = ([], Ret PNone)
  /\ extract_first_state_field_or_any_group_prefixed_field
       8 "AM,FRQ" identity PNone "C1:"
     = ([], Ret PNone)
  /\ extract_standalone_first_field_or_regular_field
       8 (Some "FRQ") identity PNone "C1:"
     = ([], Ret PNone).
Proof.
  apply (empty_remainder_returns_default identity PNone 8 "C1:"
           "CARR" "FRQ" "AM,FRQ" "FRQ").
  left. simpl. lia.
Defined.

(** ** Unit stripping *)

Section StripUnit.

Import PyStr PyStrFacts.

Context {V : Type}.
Variable then_ : pyobj -> pyres V.

Lemma strip_unit_hit (unit stem : string) :
  strip_unit unit then_ (PStr (stem ++ unit)) = then_ (PStr stem).
Proof. unfold strip_unit. now rewrite removesuffix_hit. Qed.

Lemma strip_unit_miss (unit token : string) :
  endswith token unit = false ->
  strip_unit unit then_ (PStr token) = then_ (PStr token).
Proof. intros H. unfold strip_unit. now rewrite removesuffix_miss. Qed.

Lemma sdg_strip_unit_hit (unit stem : string) :
  unit <> EmptyString ->
  Sdg.strip_unit unit then_ (PStr (stem ++ unit)) = then_ (PStr stem).
Proof.
  intros Hne. unfold Sdg.strip_unit.
  now rewrite endswith_append, slice_to_neg_length_append.
Qed.

Lemma sdg_strip_unit_miss (unit token : string) :
  endswith token unit = false ->
  Sdg.strip_unit unit then_ (PStr token) = then_ (PStr token).
Proof. intros H. unfold Sdg.strip_unit. now rewrite H. Qed.

(** Outside the units [sdg.py] uses: every string ends with the empty
    unit, and [value[:-0]] is [value[:0]]. *)
Remark sdg_strip_unit_empty_unit (token : string) :
  Sdg.strip_unit EmptyString then_ (PStr token) = then_ (PStr EmptyString).
Proof.
  unfold Sdg.strip_unit, endswith. simpl.
  rewrite Nat.sub_0_r, drop_beyond by lia. simpl.
  unfold slice_to. simpl. destruct (String.length token); reflexivity.
Qed.

End StripUnit.

(** With the default transform the stripped token itself is returned, as
    in the [then is identity] branch of the source. *)
Lemma strip_unit_identity (unit token : string) :
  strip_unit unit identity (PStr token) = Ret (PStr (PyStr.removesuffix token unit)).
Proof. reflexivity. Qed.

(** C8. [strip_unit(unit, then=f)] calls [f] on the token without its
    suffix [unit] when the token ends with [unit], and on the token as it
    is otherwise; the helper of the same name in [sdg.py] does the same for
    every non-empty [unit].  So with [float], for which
    [float("1000")] is [1000.0], both [strip_unit("HZ", then=float)] give
    [1000.0] on ["1000HZ"] and on ["1000"]. *)
Theorem strip_unit_then_float {V : Type}
    (then_ float : pyobj -> pyres V) (f1000 : V) :
  float (PStr "1000") = Ret f1000 ->
  (forall unit stem : string,
     strip_unit unit then_ (PStr (stem ++ unit)) = then_ (PStr stem))
  /\ (forall unit token : string,
        PyStr.endswith token unit = false ->
        strip_unit unit then_ (PStr token) = then_ (PStr token))
  /\ (forall unit stem : string,
        unit <> EmptyString ->
        Sdg.strip_unit unit then_ (PStr (stem ++ unit)) = then_ (PStr stem))
  /\ (forall unit token : string,
        PyStr.endswith token unit = false ->
        Sdg.strip_unit unit then_ (PStr token) = then_ (PStr token))
  /\ strip_unit "HZ" float (PStr "1000HZ") = Ret f1000
  /\ strip_unit "HZ" float (PStr "1000") = Ret f1000
  /\ Sdg.strip_unit "HZ" float (PStr "1000HZ") = Ret f1000
  /\ Sdg.strip_unit "HZ" float (PStr "1000") = Ret f1000.
Proof.
  intros Hfloat.
  split; [apply strip_unit_hit|].
  split; [apply strip_unit_miss|].
  split; [apply sdg_strip_unit_hit|].
  split; [apply sdg_strip_unit_miss|].
  repeat split; exact Hfloat.
Qed.

Lemma strip_unit_then_float_witness :
  strip_unit "HZ" decimal_literal (PStr "1000HZ") = Ret 1000%Z
  /\ strip_unit "HZ" decimal_literal (PStr "1000") = Ret 1000%Z
  /\ Sdg.strip_unit "HZ" decimal_literal (PStr "1000HZ") = Ret 1000%Z
  /\ Sdg.strip_unit "HZ" decimal_literal (PStr "1000") = Ret 1000%Z
  /\ Sdg.strip_unit "V" decimal_literal (PStr ("5" ++ "V")) = decimal_literal (PStr "5")
  /\ strip_unit "S" decimal_literal (PStr "20HZ") = decimal_literal (PStr "20HZ").
Proof.
  destruct (strip_unit_then_float decimal_literal decimal_literal 1000%Z eq_refl)
    as (_ & Hmiss & Hsdg & _ & H1 & H2 & H3 & H4).
  split; [exact H1|]. split; [exact H2|]. split; [exact H3|]. split; [exact H4|].
  split.
  - apply (Hsdg "V" "5"). discriminate.
  - apply (Hmiss "S" "20HZ"). reflexivity.
Defined.

(** ** Dictionaries and [merge_dicts] *)

Module PyDictFacts.
Import PyDict.

Section Facts.

Context {K V : Type} `{PyKey K}.

Lemma key_eqb_refl (k : K) : key_eqb k k = true.
Proof. now apply key_eqb_eq. Qed.

Lemma key_eqb_neq (a b : K) : a <> b -> key_eqb a b = false.
Proof.
  intros Hne. destruct (key_eqb a b) eqn:E; [|reflexivity].
  apply key_eqb_eq in E. contradiction.
Qed.

Lemma key_eqb_false (a b : K) : key_eqb a b = false -> a <> b.
Proof. intros E ->. now rewrite key_eqb_refl in E. Qed.

Lemma getitem_opt_absent (d : dict K V) (k : K) :
  ~ In k (keys d) -> getitem_opt d k = None.
Proof.
  induction d as [|[k' v'] d IH]; intros Hnot; [reflexivity|]. simpl in *.
  rewrite key_eqb_neq by tauto. apply IH. tauto.
Qed.

Lemma getitem_opt_present (d : dict K V) (k : K) (v : V) :
  getitem_opt d k = Some v -> In k (keys d).
Proof.
  induction d as [|[k' v'] d IH]; [discriminate|]. simpl.
  destruct (key_eqb k' k) eqn:E.
  - apply key_eqb_eq in E. now left.
  - intros Hget. right. now apply IH.
Qed.

Lemma getitem_opt_setitem (d : dict K V) (k k' : K) (v : V) :
  getitem_opt (setitem d k v) k'
  = if key_eqb k k' then Some v else getitem_opt d k'.
Proof.
  induction d as [|[k0 v0] d IH]; simpl; [reflexivity|].
  destruct (key_eqb k0 k) eqn:E0; simpl.
  - apply key_eqb_eq in E0 as ->. now destruct (key_eqb k k').
  - rewrite IH. destruct (key_eqb k0 k') eqn:E1; [|reflexivity].
    apply key_eqb_eq in E1 as ->. now rewrite (key_eqb_neq k k')
      by (intros ->; now rewrite key_eqb_refl in E0).
Qed.

Lemma keys_setitem (d : dict K V) (k k' : K) (v : V) :
  In k' (keys (setitem d k v)) <-> k' = k \/ In k' (keys d).
Proof.
  induction d as [|[k0 v0] d IH]; simpl; [intuition|].
  destruct (key_eqb k0 k) eqn:E0; simpl.
  - apply key_eqb_eq in E0 as ->. intuition.
  - rewrite IH. intuition.
Qed.

Lemma NoDup_keys_setitem (d : dict K V) (k : K) (v : V) :
  NoDup (keys d) -> NoDup (keys (setitem d k v)).
Proof.
  induction d as [|[k0 v0] d IH]; intros Hnd; simpl.
  - repeat constructor. intros [].
  - inversion Hnd as [|? ? Hk0 Hd]; subst.
    destruct (key_eqb k0 k) eqn:E0; simpl; constructor; auto.
    rewrite keys_setitem. intros [-> | Hin]; [|contradiction].
    now rewrite key_eqb_refl in E0.
Qed.

(** A new key goes to the end. *)
Lemma setitem_new (d : dict K V) (k : K) (v : V) :
  ~ In k (keys d) -> setitem d k v = d ++ [(k, v)].
Proof.
  induction d as [|[k0 v0] d IH]; intros Hnot; [reflexivity|]. simpl in *.
  rewrite key_eqb_neq by tauto. rewrite IH by tauto. reflexivity.
Qed.

Lemma update_cons (dest : dict K V) (kv : K * V) (src : dict K V) :
  update dest (kv :: src) = update (setitem dest (fst kv) (snd kv)) src.
Proof. reflexivity. Qed.

Lemma getitem_opt_update (dest src : dict K V) (k : K) :
  NoDup (keys src) ->
  getitem_opt (update dest src) k
  = match getitem_opt src k with
    | Some v => Some v
    | None => getitem_opt dest k
    end.
Proof.
  revert dest. induction src as [|[k0 v0] src IH]; intros dest Hnd; [reflexivity|].
  inversion Hnd as [|? ? Hk0 Hsrc]; subst.
  rewrite update_cons, IH by assumption. simpl.
  rewrite getitem_opt_setitem. destruct (key_eqb k0 k) eqn:E0; [|reflexivity].
  apply key_eqb_eq in E0 as ->. now rewrite getitem_opt_absent.
Qed.

Lemma getitem_opt_update_other (dest src : dict K V) (k : K) :
  ~ In k (keys src) -> getitem_opt (update dest src) k = getitem_opt dest k.
Proof.
  revert dest. induction src as [|[k0 v0] src IH]; intros dest Hnot; [reflexivity|].
  simpl in Hnot. rewrite update_cons, IH by tauto. simpl.
  rewrite getitem_opt_setitem. now rewrite key_eqb_neq by tauto.
Qed.

Lemma keys_update (dest src : dict K V) (k : K) :
  In k (keys (update dest src)) <-> In k (keys dest) \/ In k (keys src).
Proof.
  revert dest. induction src as [|[k0 v0] src IH]; intros dest; [simpl; tauto|].
  rewrite update_cons, IH, keys_setitem. simpl. intuition.
Qed.

Lemma NoDup_keys_update (dest src : dict K V) :
  NoDup (keys dest) -> NoDup (keys (update dest src)).
Proof.
  revert dest. induction src as [|[k0 v0] src IH]; intros dest Hnd; [exact Hnd|].
  rewrite update_cons. now apply IH, NoDup_keys_setitem.
Qed.

Lemma update_disjoint (dest src : dict K V) :
  NoDup (keys (dest ++ src)) -> update dest src = dest ++ src.
Proof.
  revert dest. induction src as [|[k0 v0] src IH]; intros dest Hnd.
  - now rewrite app_nil_r.
  - rewrite update_cons. simpl fst. simpl snd.
    unfold keys in Hnd. rewrite map_app in Hnd. simpl in Hnd.
    pose proof (NoDup_remove_2 _ _ _ Hnd) as Hk0.
    rewrite setitem_new by (intros Hin; apply Hk0, in_or_app; now left).
    rewrite IH; rewrite <- app_assoc; [reflexivity|].
    unfold keys. rewrite map_app. exact Hnd.
Qed.

Lemma merge_dicts_snoc (dicts : list (dict K V)) (d : dict K V) :
  merge_dicts (dicts ++ [d]) = update (merge_dicts dicts) d.
Proof. unfold merge_dicts. now rewrite fold_left_app. Qed.

Lemma keys_merge_dicts (dicts : list (dict K V)) (k : K) :
  In k (keys (merge_dicts dicts)) <-> exists d, In d dicts /\ In k (keys d).
Proof.
  induction dicts as [|d dicts IH] using rev_ind.
  - simpl. split; [intros [] | intros (d & [] & _)].
  - rewrite merge_dicts_snoc, keys_update, IH. split.
    + intros [(d' & Hin & Hk) | Hk].
      * exists d'. split; [apply in_or_app; now left | exact Hk].
      * exists d. split; [apply in_or_app; right; now left | exact Hk].
    + intros (d' & Hin & Hk). apply in_app_or in Hin as [Hin | [<- | []]].
      * left. now exists d'.
      * now right.
Qed.

Lemma NoDup_keys_merge_dicts (dicts : list (dict K V)) :
  NoDup (keys (merge_dicts dicts)).
Proof.
  induction dicts as [|d dicts IH] using rev_ind; [constructor|].
  rewrite merge_dicts_snoc. now apply NoDup_keys_update.
Qed.

End Facts.

End PyDictFacts.

(** X11. [merge_dicts]: the last dictionary that has the key gives its value. *)
Theorem merge_dicts_last_wins {K V : Type} `{PyKey K}
    (before after : list (PyDict.dict K V)) (d : PyDict.dict K V)
    (k : K) (v : V) :
  NoDup (PyDict.keys d) ->
  PyDict.getitem_opt d k = Some v ->
  (forall d', In d' after -> ~ In k (PyDict.keys d')) ->
  PyDict.getitem_opt (merge_dicts (before ++ d :: after)) k = Some v.
Proof.
  intros Hnd Hget. induction after as [|d' after IH] using rev_ind; intros Hafter.
  - rewrite PyDictFacts.merge_dicts_snoc, PyDictFacts.getitem_opt_update by exact Hnd.
    now rewrite Hget.
  - replace (before ++ d :: after ++ [d']) with ((before ++ d :: after) ++ [d'])
      by now rewrite <- app_assoc.
    rewrite PyDictFacts.merge_dicts_snoc, PyDictFacts.getitem_opt_update_other.
    + apply IH. intros d0 Hin. apply Hafter, in_or_app. now left.
    + apply Hafter, in_or_app. right. now left.
Qed.

Lemma merge_dicts_last_wins_witness :
  PyDict.getitem_opt
    (merge_dicts ([[("FRQ", "1"); ("AMP", "2")]]
                  ++ [("OFST", "0"); ("FRQ", "3")] :: [[("PHSE", "4")]]))
    "FRQ"
  = Some "3".
Proof.
  apply (merge_dicts_last_wins [[("FRQ", "1"); ("AMP", "2")]] [[("PHSE", "4")]]
           [("OFST", "0"); ("FRQ", "3")] "FRQ" "3").
  - repeat constructor; simpl; intuition discriminate.
  - reflexivity.
  - intros d' [<- | []]. simpl. intuition discriminate.
Defined.

(** X12. [merge_dicts] returns a well-formed dictionary whose keys are the keys
    of the arguments; a key that none of them has is missing from it. *)
Theorem merge_dicts_keys {K V : Type} `{PyKey K}
    (dicts : list (PyDict.dict K V)) :
  NoDup (PyDict.keys (merge_dicts dicts))
  /\ (forall k,
        In k (PyDict.keys (merge_dicts dicts))
        <-> exists d, In d dicts /\ In k (PyDict.keys d))
  /\ (forall k,
        (forall d, In d dicts -> ~ In k (PyDict.keys d)) ->
        PyDict.getitem_opt (merge_dicts dicts) k = None).
Proof.
  split; [apply PyDictFacts.NoDup_keys_merge_dicts|].
  split; [apply PyDictFacts.keys_merge_dicts|].
  intros k Hnone. apply PyDictFacts.getitem_opt_absent.
  rewrite PyDictFacts.keys_merge_dicts. intros (d & Hin & Hk).
  exact (Hnone d Hin Hk).
Qed.

Lemma merge_dicts_keys_witness :
  PyDict.getitem_opt (merge_dicts [[("FRQ", "1")]; [("AMP", "2")]]) "PHSE" = None.
Proof.
  apply (proj2 (proj2 (merge_dicts_keys [[("FRQ", "1")]; [("AMP", "2")]]))).
  intros d [<- | [<- | []]]; simpl; intuition discriminate.
Defined.

(** X13. [merge_dicts] of dictionaries that share no key lists their items one
    dictionary after the other; in particular it copies a single
    dictionary. *)
Theorem merge_dicts_disjoint {K V : Type} `{PyKey K}
    (dicts : list (PyDict.dict K V)) :
  NoDup (PyDict.keys (concat dicts)) ->
  merge_dicts dicts = concat dicts.
Proof.
  induction dicts as [|d dicts IH] using rev_ind; intros Hnd; [reflexivity|].
  rewrite concat_app in *. simpl concat in *. rewrite app_nil_r in *.
  rewrite PyDictFacts.merge_dicts_snoc, IH.
  - now apply PyDictFacts.update_disjoint.
  - unfold PyDict.keys in *. rewrite map_app in Hnd.
    now apply NoDup_app_remove_r in Hnd.
Qed.

Lemma merge_dicts_disjoint_witness :
  merge_dicts [[("FRQ", "1"); ("AMP", "2")]; [("PHSE", "4")]]
  = [("FRQ", "1"); ("AMP", "2"); ("PHSE", "4")].
Proof.
  apply (merge_dicts_disjoint [[("FRQ", "1"); ("AMP", "2")]; [("PHSE", "4")]]).
  repeat constructor; simpl; intuition discriminate.
Defined.

(** ** [parse_outp] of [sdg.py] *)

Section ParseOutp.

Import PyDict PyDictFacts.

(** The step of the loop: [res[outp_remap.get(k, k)] = v]. *)
Let step (res : dict string string) (kv : string * string) : dict string string :=
  setitem res (get Sdg.outp_remap (fst kv) (fst kv)) (snd kv).

Let renamed (kv : string * string) : string * string :=
  (get Sdg.outp_remap (fst kv) (fst kv), snd kv).

Lemma list_slice_from_1 {T} (x : T) (l : list T) : list_slice_from 1 (x :: l) = l.
Proof.
  unfold list_slice_from. simpl Z.ltb. cbv iota.
  rewrite Z.min_l by (simpl List.length; lia). reflexivity.
Qed.

Lemma parse_outp_tokens (skip : Z) (response first : string) (rest : list string) :
  PyStr.split comma (PyStr.slice_from skip response) = first :: rest ->
  Sdg.parse_outp skip response
  = Ret (fold_left step (zip_shared rest) [("enabled", first)]).
Proof.
  intros Htok. unfold Sdg.parse_outp. rewrite Htok, list_slice_from_1. reflexivity.
Qed.

Lemma fold_step_snoc (pairs : list (string * string)) (kv : string * string)
    (res : dict string string) :
  fold_left step (pairs ++ [kv]) res = step (fold_left step pairs res) kv.
Proof. now rewrite fold_left_app. Qed.

Lemma fold_step_head (pairs : list (string * string)) (k0 v0 : string)
    (res : dict string string) :
  NoDup (keys ((k0, v0) :: res)) ->
  exists v items,
    fold_left step pairs ((k0, v0) :: res) = (k0, v) :: items
    /\ NoDup (keys ((k0, v) :: items)).
Proof.
  revert v0 res. induction pairs as [|kv pairs IH]; intros v0 res Hnd.
  - now exists v0, res.
  - simpl fold_left. unfold step at 2.
    pose proof (NoDup_keys_setitem ((k0, v0) :: res)
                  (get Sdg.outp_remap (fst kv) (fst kv)) (snd kv) Hnd) as Hnd'.
    simpl setitem in *.
    destruct (String.eqb k0 (get Sdg.outp_remap (fst kv) (fst kv)));
      now apply IH.
Qed.

Lemma getitem_opt_fold_step_other (pairs : list (string * string))
    (res : dict string string) (key : string) :
  ~ In key (map fst (map renamed pairs)) ->
  getitem_opt (fold_left step pairs res) key = getitem_opt res key.
Proof.
  induction pairs as [|kv pairs IH] using rev_ind; intros Hnot; [reflexivity|].
  rewrite !map_app in Hnot. simpl in Hnot.
  rewrite fold_step_snoc. unfold step at 1. rewrite getitem_opt_setitem.
  rewrite key_eqb_neq.
  - apply IH. intros Hin. apply Hnot, in_or_app. now left.
  - intros E. apply Hnot, in_or_app. right. left. exact E.
Qed.

Lemma fold_step_new (pairs : list (string * string)) (res : dict string string) :
  NoDup (keys res ++ map fst (map renamed pairs)) ->
  fold_left step pairs res = res ++ map renamed pairs.
Proof.
  revert res. induction pairs as [|kv pairs IH]; intros res Hnd.
  - now rewrite app_nil_r.
  - simpl in *. unfold step at 2.
    rewrite setitem_new
      by (apply NoDup_remove_2 in Hnd; intros Hin; apply Hnd, in_or_app; now left).
    rewrite IH.
    + now rewrite <- app_assoc.
    + unfold keys in *. rewrite map_app, <- app_assoc. exact Hnd.
Qed.

(** X17. [parse_outp] never raises; the dictionary it returns is well formed
    and its first key is ["enabled"]. *)
Theorem parse_outp_enabled_first (skip : Z) (response : string) :
  exists value items,
    Sdg.parse_outp skip response = Ret (("enabled", value) :: items)
    /\ NoDup (keys (("enabled", value) :: items)).
Proof.
  destruct (response_has_first_token skip response) as (first & rest & Htok).
  rewrite (parse_outp_tokens skip response first rest Htok).
  destruct (fold_step_head (zip_shared rest) "enabled" first [])
    as (value & items & Hfold & Hnd); [repeat constructor; simpl; tauto|].
  exists value, items. now rewrite Hfold.
Qed.

(** X18. [parse_outp] keeps the value of the last pair of a name: for the
    tokens [first :: rest] of the response and a pair [(k, v)] of [rest]
    after which no pair has the same name (after renaming), the name of
    [k] maps to [v]; a name no pair has is missing, except ["enabled"],
    which then maps to the first token. *)
Theorem parse_outp_last_wins (skip : Z) (response first : string)
    (rest : list string) :
  PyStr.split comma (PyStr.slice_from skip response) = first :: rest ->
  let name := fun k => get Sdg.outp_remap k k in
  exists res,
    Sdg.parse_outp skip response = Ret res
    /\ (forall pre k v post,
          zip_shared rest = pre ++ (k, v) :: post ->
          ~ In (name k) (map name (map fst post)) ->
          getitem_opt res (name k) = Some v)
    /\ (forall key,
          ~ In key (map name (map fst (zip_shared rest))) ->
          getitem_opt res key
          = if String.eqb key "enabled" then Some first else None).
Proof.
  intros Htok name. eexists.
  split; [exact (parse_outp_tokens skip response first rest Htok)|].
  assert (Hnames : forall l, map name (map fst l) = map fst (map renamed l)).
  { intros l. rewrite !map_map. reflexivity. }
  split.
  - intros pre k v post Hrun Hlast. rewrite Hrun.
    replace (pre ++ (k, v) :: post) with ((pre ++ [(k, v)]) ++ post)
      by now rewrite <- app_assoc.
    rewrite fold_left_app, getitem_opt_fold_step_other
      by (rewrite <- Hnames; exact Hlast).
    rewrite fold_step_snoc. unfold step at 1. rewrite getitem_opt_setitem.
    simpl fst. simpl snd. fold (name k). now rewrite key_eqb_refl.
  - intros key Hnot. rewrite getitem_opt_fold_step_other
      by (rewrite <- Hnames; exact Hnot).
    simpl. rewrite String.eqb_sym. now destruct (String.eqb key "enabled").
Qed.

(** X19. On a response ["<prefix>E,K1,V1,...,Kn,Vn"] whose names, after
    renaming, are pairwise different and different from ["enabled"],
    [parse_outp] returns ["enabled"] with [E] followed by the renamed
    names with their values, in the order of the response. *)
Theorem parse_outp_fields (skip : Z) (prefix enabled : string)
    (kvs : list (string * string)) :
  Z.of_nat (String.length prefix) = skip ->
  Forall comma_free (enabled :: tokens_of_pairs kvs) ->
  let name := fun k => get Sdg.outp_remap k k in
  NoDup ("enabled" :: map name (map fst kvs)) ->
  Sdg.parse_outp skip
    (prefix ++ PyStr.join comma (enabled :: tokens_of_pairs kvs))
  = Ret (("enabled", enabled) :: map (fun kv => (name (fst kv), snd kv)) kvs).
Proof.
  intros Hlen Hfree name Hnd.
  rewrite (parse_outp_tokens skip _ enabled (tokens_of_pairs kvs))
    by (apply tokens_of_response; [exact Hlen | discriminate | exact Hfree]).
  pose proof (group_by_two_tokens_of_pairs kvs) as Hpairs.
  unfold group_by_two, iter in Hpairs. rewrite Hpairs.
  rewrite fold_step_new; [reflexivity|].
  simpl. rewrite !map_map in *. exact Hnd.
Qed.

End ParseOutp.

Lemma parse_outp_last_wins_witness :
  exists res,
    Sdg.parse_outp 8 "C1:OUTP ON,LOAD,HZ,PLRT,NOR,LOAD,50" = Ret res
    /\ PyDict.getitem_opt res "load" = Some "50"
    /\ PyDict.getitem_opt res "enabled" = Some "ON".
Proof.
  destruct (parse_outp_last_wins 8 "C1:OUTP ON,LOAD,HZ,PLRT,NOR,LOAD,50" "ON"
              ["LOAD"; "HZ"; "PLRT"; "NOR"; "LOAD"; "50"] eq_refl)
    as (res & Hres & Hlast & Hmiss).
  exists res. split; [exact Hres | split].
  - apply (Hlast [("LOAD", "HZ"); ("PLRT", "NOR")] "LOAD" "50" []);
      [reflexivity | intros []].
  - apply (Hmiss "enabled"). simpl. intuition discriminate.
Defined.

Lemma parse_outp_fields_witness :
  Sdg.parse_outp 8 "C1:OUTP ON,LOAD,HZ,POWERON_STATE,0,PLRT,NOR"
  = Ret [("enabled", "ON"); ("load", "HZ"); ("poweron_state", "0");
         ("polarity", "NOR")].
Proof.
  apply (parse_outp_fields 8 "C1:OUTP " "ON"
           [("LOAD", "HZ"); ("POWERON_STATE", "0"); ("PLRT", "NOR")]).
  - reflexivity.
  - repeat constructor.
  - repeat constructor; simpl; intuition discriminate.
Defined.

(** ** [extract_bswv_field] of [sdg.py] *)

Lemma extract_bswv_field_loop_find_first_by_key {V : Type} (name : string)
    (pairs : list (string * string)) (then_ : pyobj -> pyres V)
    (else_default : V) :
  Sdg.extract_bswv_field_loop name pairs then_ else_default
  = find_first_by_key name pairs then_ else_default.
Proof.
  induction pairs as [|[key value] pairs IH]; [reflexivity|].
  simpl. unfold to_obj, PyObj_string. simpl. now rewrite IH.
Qed.

(** X14. The helper [extract_bswv_field] of [sdg.py] is the extractor of
    [extract_regular_field] for the prefix length [cmd_prefix_len + 1]:
    the same calls of the transform and the same result on every
    response. *)
Theorem extract_bswv_field_is_extract_regular_field {V : Type}
    (cmd_prefix_len : Z) (name : string) (then_ : pyobj -> pyres V)
    (else_default : V) (response : string) :
  Sdg.extract_bswv_field cmd_prefix_len name then_ else_default response
  = extract_regular_field (cmd_prefix_len + 1) name then_ else_default response.
Proof.
  unfold Sdg.extract_bswv_field, extract_regular_field, group_by_two.
  apply extract_bswv_field_loop_find_first_by_key.
Qed.

(** X15. The two [strip_unit] agree for every unit but the empty one. *)
Theorem sdg_strip_unit_is_strip_unit {V : Type} (unit : string)
    (then_ : pyobj -> pyres V) (value : pyobj) :
  unit <> EmptyString ->
  Sdg.strip_unit unit then_ value = strip_unit unit then_ value.
Proof.
  intros Hne. destruct value as [|s|it]; try reflexivity.
  unfold Sdg.strip_unit, strip_unit, PyStr.removesuffix.
  destruct (String.eqb_spec unit EmptyString) as [E|_]; [contradiction|].
  reflexivity.
Qed.

Lemma sdg_strip_unit_is_strip_unit_witness :
  Sdg.strip_unit "HZ" decimal_literal (PStr "1000HZ")
  = strip_unit "HZ" decimal_literal (PStr "1000HZ").
Proof.
  apply (sdg_strip_unit_is_strip_unit "HZ" decimal_literal (PStr "1000HZ")).
  discriminate.
Defined.

(** X16. A parser of the basic-wave group, [extract_bswv_field(name,
    then=strip_unit(unit, then=f))], on ["<cmd_prefix> K1,V1,...,Kn,Vn"]
    with pairwise different keys: for a field [name] whose value is
    [number ++ unit] it returns [f(number)], and for a missing field it
    returns the default and calls nothing. *)
Theorem extract_bswv_field_strip_unit {V : Type}
    (f : pyobj -> pyres V) (else_default : V)
    (cmd_prefix name unit : string) (kvs : list (string * string)) :
  unit <> EmptyString ->
  NoDup (map fst kvs) ->
  Forall comma_free (tokens_of_pairs kvs) ->
  let parser :=
    Sdg.extract_bswv_field (Z.of_nat (String.length cmd_prefix)) name
      (Sdg.strip_unit unit f) else_default in
  let response :=
    (cmd_prefix ++ " " ++ PyStr.join comma (tokens_of_pairs kvs))%string in
  (forall number : string,
     In (name, (number ++ unit)%string) kvs ->
     parser response = ([PStr (number ++ unit)], f (PStr number)))
  /\ (~ In name (map fst kvs) -> parser response = ([], Ret else_default)).
Proof.
  intros Hne Hnd Hfree parser response. unfold parser, response.
  unfold Sdg.extract_bswv_field.
  rewrite extract_bswv_field_loop_find_first_by_key.
  replace (cmd_prefix ++ " " ++ PyStr.join comma (tokens_of_pairs kvs))%string
    with ((cmd_prefix ++ " ") ++ PyStr.join comma (tokens_of_pairs kvs))%string
    by apply PyStrFacts.append_assoc.
  pose proof (pairs_of_response (Z.of_nat (String.length cmd_prefix) + 1)
                (cmd_prefix ++ " ") kvs) as Hpairs.
  unfold group_by_two in Hpairs. rewrite Hpairs; try assumption.
  - split.
    + intros number Hin.
      destruct (in_nodup_keys_split name _ kvs Hnd Hin) as (pre & post & -> & Hpre).
      rewrite find_first_by_key_first by exact Hpre.
      now rewrite sdg_strip_unit_hit.
    + intros Hnot. now apply find_first_by_key_absent.
  - rewrite PyStrFacts.length_append. simpl. lia.
Qed.

Lemma extract_bswv_field_strip_unit_witness :
  Sdg.extract_bswv_field 7 "FRQ" (Sdg.strip_unit "HZ" decimal_literal) 0%Z
    "C1:BSWV WVTP,SINE,FRQ,1000HZ,AMP,4V"
  = ([PStr "1000HZ"], Ret 1000%Z)
  /\ Sdg.extract_bswv_field 7 "PERI" (Sdg.strip_unit "S" decimal_literal) 0%Z
       "C1:BSWV WVTP,SINE,FRQ,1000HZ,AMP,4V"
     = ([], Ret 0%Z).
Proof.
  assert (Hnd : NoDup (map fst [("WVTP", "SINE"); ("FRQ", "1000HZ"); ("AMP", "4V")])).
  { repeat constructor; simpl; intuition discriminate. }
  assert (Hfree : Forall comma_free
            (tokens_of_pairs [("WVTP", "SINE"); ("FRQ", "1000HZ"); ("AMP", "4V")])).
  { repeat constructor. }
  split.
  - apply (proj1 (extract_bswv_field_strip_unit decimal_literal 0%Z
                    "C1:BSWV" "FRQ" "HZ"
                    [("WVTP", "SINE"); ("FRQ", "1000HZ"); ("AMP", "4V")]
                    ltac:(discriminate) Hnd Hfree) "1000").
    simpl. auto.
  - apply (proj2 (extract_bswv_field_strip_unit decimal_literal 0%Z
                    "C1:BSWV" "PERI" "S"
                    [("WVTP", "SINE"); ("FRQ", "1000HZ"); ("AMP", "4V")]
                    ltac:(discriminate) Hnd Hfree)).
    simpl. intuition discriminate.
Defined.

(** ** [substr_from] and [none_to_empty_str] *)

Section SubstrFrom.

Import PyStr PyStrFacts.

Lemma drop_drop (a b : nat) (s : string) : drop a (drop b s) = drop (b + a) s.
Proof.
  revert s; induction b as [|b IH]; intros s; [reflexivity|].
  destruct s as [|c s]; simpl; [now destruct a | apply IH].
Qed.

Lemma slice_from_nonneg (n : Z) (s : string) :
  (0 <= n)%Z -> slice_from n s = drop (Z.to_nat n) s.
Proof.
  intros Hn. unfold slice_from.
  destruct (Z.ltb_spec n 0) as [H0|_]; [lia|].
  destruct (Z.le_gt_cases n (Z.of_nat (String.length s))) as [Hle|Hgt].
  - now rewrite Z.min_l.
  - rewrite Z.min_r, Nat2Z.id by lia.
    rewrite !drop_beyond; [reflexivity | lia | lia].
Qed.

End SubstrFrom.

(** X9. [substr_from(n, then=substr_from(m, then=f))] is
    [substr_from(n + m, then=f)] for non-negative [n] and [m]. *)
Theorem substr_from_substr_from {V : Type} (n m : Z)
    (f : pyobj -> pyres V) (value : pyobj) :
  (0 <= n)%Z -> (0 <= m)%Z ->
  substr_from n (substr_from m f) value = substr_from (n + m) f value.
Proof.
  intros Hn Hm. destruct value as [|s|it]; try reflexivity.
  unfold substr_from. rewrite !slice_from_nonneg by lia.
  rewrite drop_drop. now rewrite Z2Nat.inj_add by lia.
Qed.

Lemma substr_from_substr_from_witness :
  substr_from 3 (substr_from 5 identity) (PStr "C1:BSWV WVTP,SINE")
  = substr_from (3 + 5) identity (PStr "C1:BSWV WVTP,SINE").
Proof.
  apply (substr_from_substr_from 3 5 identity (PStr "C1:BSWV WVTP,SINE")); lia.
Defined.



(** ** More on the pair scanner and the strategies *)

Section BeforeGroup.

Import PyStr PyStrFacts.

Lemma takewhile_until (group : string) (pre post : list string) :
  ~ In group pre ->
  takewhile (fun str => negb (String.eqb str group)) (pre ++ group :: post) = pre.
Proof.
  induction pre as [|x pre IH]; intros Hnot; simpl in *.
  - now rewrite String.eqb_refl.
  - destruct (String.eqb_spec x group) as [->|_]; [tauto|]. simpl.
    rewrite IH by tauto. reflexivity.
Qed.

Lemma takewhile_all (group : string) (l : list string) :
  ~ In group l ->
  takewhile (fun str => negb (String.eqb str group)) l = l.
Proof.
  induction l as [|x l IH]; intros Hnot; simpl in *; [reflexivity|].
  destruct (String.eqb_spec x group) as [->|_]; [tauto|]. simpl.
  rewrite IH by tauto. reflexivity.
Qed.

Lemma takewhile_not_in (group : string) (l : list string) :
  ~ In group (takewhile (fun str => negb (String.eqb str group)) l).
Proof.
  induction l as [|x l IH]; simpl; [tauto|].
  destruct (String.eqb_spec x group) as [->|Hne]; simpl; [tauto|].
  intros [E | Hin]; [now apply Hne | now apply IH].
Qed.

Lemma startswith_inv (s p : string) :
  startswith s p = true -> exists r, s = (p ++ r)%string.
Proof.
  revert s; induction p as [|a p IH]; intros s H.
  - now exists s.
  - destruct s as [|b s]; [discriminate|]. simpl in H.
    apply andb_true_iff in H as [Hab Hsw].
    apply Ascii.eqb_eq in Hab as ->. destruct (IH s Hsw) as (r & ->).
    now exists r.
Qed.

(** A path without a comma is not a group-prefixed path. *)
Lemma comma_free_not_group_prefixed (name group : string) :
  comma_free name -> startswith name (group ++ ",") = false.
Proof.
  intros Hfree. destruct (startswith name (group ++ ",")) eqn:Hsw; [|reflexivity].
  apply startswith_inv in Hsw as (r & ->).
  unfold comma_free, sep_free in Hfree.
  rewrite !count_char_append in Hfree. simpl in Hfree. lia.
Qed.

Lemma marker_not_group_prefixed (group : string) :
  startswith group (group ++ ",") = false.
Proof.
  induction group as [|a group IH]; [reflexivity|].
  simpl. now rewrite Ascii.eqb_refl, IH.
Qed.

Lemma group_by_two_keys_in {T} (l : list T) (k : T) :
  In k (map fst (group_by_two l)) -> In k l.
Proof.
  intros Hin. apply in_map_iff in Hin as ([k' v] & <- & Hin).
  now apply group_by_two_In in Hin.
Qed.

End BeforeGroup.

(** X1. For a path that is not group-prefixed, the extractor of
    [extract_regular_field_before_group_or_group_prefixed_field] looks the
    path up in the pair run of the tokens before the first bare token
    equal to the marker: what follows the marker has no influence, and a
    key that only occurs after it gives the default. *)
Theorem field_before_group_ignores_group {V : Type}
    (then_ : pyobj -> pyres V) (else_default : V)
    (_group : string) (prefixLen : Z) (name response : string)
    (pre post : list string) :
  PyStr.startswith name (_group ++ ",") = false ->
  PyStr.split comma (PyStr.slice_from prefixLen response) = pre ++ _group :: post ->
  ~ In _group pre ->
  let result :=
    extract_regular_field_before_group_or_group_prefixed_field
      _group prefixLen name then_ else_default response in
  result = find_first_by_key name (group_by_two pre) then_ else_default
  /\ (~ In name pre -> result = ([], Ret else_default)).
Proof.
  intros Hsw Htok Hpre result. unfold result.
  rewrite before_group_simple_path by exact Hsw.
  rewrite Htok, takewhile_until by exact Hpre.
  split; [reflexivity|].
  intros Hnot. apply find_first_by_key_absent.
  intros Hin. now apply Hnot, group_by_two_keys_in.
Qed.

Lemma field_before_group_ignores_group_witness :
  extract_regular_field_before_group_or_group_prefixed_field
    "CARR" 8 "B" identity PNone "<prefix>A,1,CARR,B,2"
  = ([], Ret PNone).
Proof.
  apply (proj2 (field_before_group_ignores_group identity PNone
                  "CARR" 8 "B" "<prefix>A,1,CARR,B,2" ["A"; "1"] ["B"; "2"]
                  eq_refl eq_refl ltac:(simpl; intuition discriminate))).
  simpl. intuition discriminate.
Defined.

(** X2. On a response without a bare token equal to the marker, and for a path
    that is not group-prefixed, the extractor of
    [extract_regular_field_before_group_or_group_prefixed_field] is the
    extractor of [extract_regular_field]. *)
Theorem field_before_group_without_marker {V : Type}
    (then_ : pyobj -> pyres V) (else_default : V)
    (_group : string) (prefixLen : Z) (name response : string) :
  PyStr.startswith name (_group ++ ",") = false ->
  ~ In _group (PyStr.split comma (PyStr.slice_from prefixLen response)) ->
  extract_regular_field_before_group_or_group_prefixed_field
    _group prefixLen name then_ else_default response
  = extract_regular_field prefixLen name then_ else_default response.
Proof.
  intros Hsw Hnot. rewrite before_group_simple_path by exact Hsw.
  now rewrite takewhile_all.
Qed.

Lemma field_before_group_without_marker_witness :
  extract_regular_field_before_group_or_group_prefixed_field
    "CARR" 8 "FRQ" identity PNone "C1:BSWV WVTP,SINE,FRQ,1000HZ"
  = extract_regular_field 8 "FRQ" identity PNone "C1:BSWV WVTP,SINE,FRQ,1000HZ".
Proof.
  apply (field_before_group_without_marker identity PNone
           "CARR" 8 "FRQ" "C1:BSWV WVTP,SINE,FRQ,1000HZ" eq_refl).
  simpl. intuition discriminate.
Defined.

(** X3. The marker is searched among all tokens, values included: when the
    value of a field is the marker literal, the tokens before the marker
    end with the key of that field alone, and the extractor for that key
    returns the default. *)
Theorem field_with_marker_value_is_not_found {V : Type}
    (then_ : pyobj -> pyres V) (else_default : V)
    (_group : string) (prefixLen : Z) (name response : string)
    (kvs : list (string * string)) (post : list string) :
  PyStr.split comma (PyStr.slice_from prefixLen response)
  = tokens_of_pairs kvs ++ name :: _group :: post ->
  ~ In _group (tokens_of_pairs kvs) ->
  name <> _group ->
  ~ In name (map fst kvs) ->
  extract_regular_field_before_group_or_group_prefixed_field
    _group prefixLen name then_ else_default response
  = ([], Ret else_default).
Proof.
  intros Htok Hpre Hneq Hnot.
  assert (Hfree : comma_free name).
  { pose proof (PyStrFacts.split_sep_free comma
                  (PyStr.slice_from prefixLen response)) as Hall.
    rewrite Htok in Hall. apply Forall_app in Hall as [_ Hall].
    now inversion Hall. }
  rewrite before_group_simple_path
    by now apply comma_free_not_group_prefixed.
  rewrite Htok.
  replace (tokens_of_pairs kvs ++ name :: _group :: post)
    with ((tokens_of_pairs kvs ++ [name]) ++ _group :: post)
    by now rewrite <- app_assoc.
  rewrite takewhile_until.
  - rewrite group_by_two_dangling. now apply find_first_by_key_absent.
  - intros Hin. apply in_app_or in Hin as [Hin | [E | []]]; [tauto | now apply Hneq].
Qed.

Lemma field_with_marker_value_is_not_found_witness :
  extract_regular_field_before_group_or_group_prefixed_field
    "CARR" 8 "SRC" identity PNone "<prefix>A,1,SRC,CARR,B,2"
  = ([], Ret PNone).
Proof.
  apply (field_with_marker_value_is_not_found identity PNone
           "CARR" 8 "SRC" "<prefix>A,1,SRC,CARR,B,2" [("A", "1")] ["B"; "2"]
           eq_refl);
    simpl; intuition discriminate.
Defined.

(** X4. The marker itself is never a key for
    [extract_regular_field_before_group_or_group_prefixed_field]: the
    extractor for the path equal to the marker returns the default on
    every response. *)
Theorem marker_is_never_extracted {V : Type}
    (then_ : pyobj -> pyres V) (else_default : V)
    (_group : string) (prefixLen : Z) (response : string) :
  extract_regular_field_before_group_or_group_prefixed_field
    _group prefixLen _group then_ else_default response
  = ([], Ret else_default).
Proof.
  rewrite before_group_simple_path by apply marker_not_group_prefixed.
  apply find_first_by_key_absent. intros Hin.
  apply group_by_two_keys_in in Hin. now apply takewhile_not_in in Hin.
Qed.

(** X5. For a group-prefixed path [_group,param] the extractor of
    [extract_regular_field_before_group_or_group_prefixed_field] returns
    the default on every response and never calls the transform. *)
Theorem group_prefixed_field_is_always_default {V : Type}
    (then_ : pyobj -> pyres V) (else_default : V)
    (_group param : string) (prefixLen : Z) (response : string) :
  extract_regular_field_before_group_or_group_prefixed_field
    _group prefixLen (_group ++ "," ++ param) then_ else_default response
  = ([], Ret else_default).
Proof.
  apply group_prefixed_path_always_default.
  replace (_group ++ "," ++ param)%string with ((_group ++ ",") ++ param)%string
    by apply PyStrFacts.append_assoc.
  apply PyStrFacts.startswith_append.
Qed.

(** X6. With a field requested, the extractor of
    [extract_standalone_first_field_or_regular_field] on
    ["<prefix>T,rest"] is the extractor of [extract_regular_field] on
    ["<prefix>rest"]. *)
Theorem standalone_regular_field_is_extract_regular_field {V : Type}
    (then_ : pyobj -> pyres V) (else_default : V)
    (prefixLen : Z) (name prefix first rest : string) :
  Z.of_nat (String.length prefix) = prefixLen ->
  comma_free first ->
  extract_standalone_first_field_or_regular_field
    prefixLen (Some name) then_ else_default
    (prefix ++ first ++ "," ++ rest)
  = extract_regular_field prefixLen name then_ else_default (prefix ++ rest).
Proof.
  intros Hlen Hfree.
  rewrite (standalone_regular_field then_ else_default prefixLen name _
             first (PyStr.split comma rest)).
  - unfold extract_regular_field. now rewrite PyStrFacts.slice_from_prefix.
  - rewrite PyStrFacts.slice_from_prefix by exact Hlen.
    now apply PyStrFacts.split_token_sep.
Qed.

Lemma standalone_regular_field_is_extract_regular_field_witness :
  extract_standalone_first_field_or_regular_field 8 (Some "FRQ") identity PNone
    ("C1:MDWV " ++ "ON" ++ "," ++ "FRQ,100,AMP,2")
  = extract_regular_field 8 "FRQ" identity PNone ("C1:MDWV " ++ "FRQ,100,AMP,2").
Proof.
  apply (standalone_regular_field_is_extract_regular_field identity PNone
           8 "FRQ" "C1:MDWV " "ON" "FRQ,100,AMP,2"); reflexivity.
Defined.

(** X7. [group_by_two] of a concatenation whose first part has an even number
    of items pairs the two parts separately. *)
Theorem group_by_two_app_even {T : Type} (l1 l2 : list T) (n : nat) :
  List.length l1 = (2 * n)%nat ->
  group_by_two (l1 ++ l2) = group_by_two l1 ++ group_by_two l2.
Proof.
  revert n. induction l1 as [| x | a b l1 IH] using list_pair_ind; intros n Hlen.
  - reflexivity.
  - simpl in Hlen. lia.
  - unfold group_by_two, iter in *. simpl.
    rewrite (IH (Nat.pred n)); [reflexivity|]. simpl in Hlen. lia.
Qed.

Lemma group_by_two_app_even_witness :
  group_by_two (["WVTP"; "SINE"] ++ ["FRQ"; "1000HZ"; "AMP"])
  = group_by_two ["WVTP"; "SINE"] ++ group_by_two ["FRQ"; "1000HZ"; "AMP"].
Proof.
  apply (group_by_two_app_even ["WVTP"; "SINE"] ["FRQ"; "1000HZ"; "AMP"] 1).
  reflexivity.
Defined.

(** ** Where [substr_from] cuts *)

Lemma length_take (k : nat) (s : string) :
  String.length (PyStr.take k s) = Nat.min k (String.length s).
Proof.
  revert s; induction k as [|k IH]; intros [|c s]; simpl; try reflexivity.
  now rewrite IH.
Qed.

(** X10. On every [str] and for every [n], [substr_from(n, then=f)] is one
    call of [f], on a suffix of the string: for [n >= 0] the string
    without its first [min(n, len)] characters, for [n < 0] its last
    [min(-n, len)] characters.  So [f] gets what follows a prefix of [n]
    characters, the empty string when the string has at most [n]
    characters, and the whole string when [n <= -len]; [substr_from] adds
    no failure of its own. *)
Theorem substr_from_cases {V : Type} (f : pyobj -> pyres V) :
  (forall (n : Z) (s : string),
     exists cut kept : string,
       s = (cut ++ kept)%string
       /\ substr_from n f (PStr s) = f (PStr kept)
       /\ ((0 <= n)%Z ->
           String.length cut = Nat.min (Z.to_nat n) (String.length s))
       /\ ((n < 0)%Z ->
           String.length kept = Nat.min (Z.to_nat (- n)) (String.length s)))
  /\ (forall prefix rest : string,
        substr_from (Z.of_nat (String.length prefix)) f (PStr (prefix ++ rest))
        = f (PStr rest))
  /\ (forall (n : Z) (s : string),
        (Z.of_nat (String.length s) <= n)%Z ->
        substr_from n f (PStr s) = f (PStr EmptyString))
  /\ (forall (n : Z) (s : string),
        (n <= - Z.of_nat (String.length s))%Z ->
        substr_from n f (PStr s) = f (PStr s)).
Proof.
  split; [|split; [|split]].
  - intros n s. unfold substr_from, PyStr.slice_from.
    set (len := Z.of_nat (String.length s)).
    set (start := Z.to_nat (if (n <? 0)%Z then Z.max (len + n) 0 else Z.min n len)).
    exists (PyStr.take start s), (PyStr.drop start s).
    split; [symmetry; apply PyStrFacts.take_drop|].
    split; [reflexivity|]. split.
    + intros Hn. rewrite length_take. unfold start.
      destruct (Z.ltb_spec n 0) as [H0|_]; [lia|]. unfold len. lia.
    + intros Hn. rewrite PyStrFacts.length_drop. unfold start.
      destruct (Z.ltb_spec n 0) as [_|H0]; [|lia]. unfold len. lia.
  - intros prefix rest. unfold substr_from.
    now rewrite PyStrFacts.slice_from_prefix.
  - intros n s Hn. unfold substr_from. now rewrite PyStrFacts.slice_from_beyond.
  - intros n s Hn. unfold substr_from, PyStr.slice_from.
    destruct (Z.ltb_spec n 0) as [_|H0].
    + now rewrite Z.max_r by lia.
    + assert (String.length s = 0%nat) as Hlen by lia.
      destruct s; [|discriminate]. now rewrite Z.min_r by (simpl; lia).
Qed.

Lemma substr_from_cases_witness :
  (exists cut kept : string,
     "C1:BSWV" = (cut ++ kept)%string
     /\ substr_from (-4) identity (PStr "C1:BSWV") = Ret (PStr kept)
     /\ String.length kept = 4%nat)
  /\ substr_from (-4) identity (PStr "C1:BSWV") = Ret (PStr "BSWV")
  /\ substr_from 80 identity (PStr "C1:BSWV") = Ret (PStr EmptyString)
  /\ substr_from (-80) identity (PStr "C1:BSWV") = Ret (PStr "C1:BSWV").
Proof.
  split; [|split; [|split]].
  - destruct (proj1 (substr_from_cases identity) (-4)%Z "C1:BSWV")
      as (cut & kept & Hs & Hres & _ & Hlen).
    exists cut, kept. split; [exact Hs | split; [exact Hres|]].
    apply Hlen. lia.
  - reflexivity.
  - apply (proj1 (proj2 (proj2 (substr_from_cases identity))) 80%Z "C1:BSWV").
    simpl. lia.
  - apply (proj2 (proj2 (proj2 (substr_from_cases identity))) (-80)%Z "C1:BSWV").
    simpl. lia.
Defined.

(** ** Lookup in a pair run *)

Section LookupOutcome.

Context {V : Type}.
Variable then_ : pyobj -> pyres V.
Variable else_default : V.

Lemma group_by_two_pair_run (kvs : list (string * string)) (tail : list string) :
  (List.length tail <= 1)%nat ->
  group_by_two (tokens_of_pairs kvs ++ tail) = kvs.
Proof.
  intros Hlen. destruct tail as [|x [|y tail]].
  - rewrite app_nil_r. apply group_by_two_tokens_of_pairs.
  - apply group_by_two_dangling.
  - simpl in Hlen. lia.
Qed.

Lemma find_first_by_key_lookup_outcome (name : string) (run : list string) :
  lookup_outcome then_ else_default name run
    (find_first_by_key name (group_by_two run) then_ else_default).
Proof.
  intros kvs tail -> Hlen. rewrite group_by_two_pair_run by exact Hlen. split.
  - intros pre v post -> Hpre. now apply find_first_by_key_first.
  - intros Hnot. now apply find_first_by_key_absent.
Qed.




End LookupOutcome.

(** ** The scalar-or-pairs strategy, on every response *)

(** C6, as the code has it.  With no field requested the extractor of
    [extract_standalone_first_field_or_regular_field] returns the
    transform of the first token after the prefix on every response and
    raises nothing of its own: when nothing follows the prefix the first
    token is the empty string, and the transform is called on it.  With a
    field requested the first token is dropped, whatever it is, and the
    field is looked up in the pair run of the remaining tokens: the
    transform of the value of the first pair with that key, called once,
    or the default, with no call, when no pair has the key. *)
Theorem extract_standalone_first_field_or_regular_field_spec {V : Type}
    (then_ : pyobj -> pyres V) (else_default : V)
    (prefixLen : Z) (response : string) :
  let tokens := PyStr.split comma (PyStr.slice_from prefixLen response) in
  (exists first rest,
     tokens = first :: rest
     /\ extract_standalone_first_field_or_regular_field
          prefixLen None then_ else_default response
        = ([PStr first], then_ (PStr first)))
  /\ (PyStr.slice_from prefixLen response = EmptyString ->
      extract_standalone_first_field_or_regular_field
        prefixLen None then_ else_default response
      = ([PStr EmptyString], then_ (PStr EmptyString)))
  /\ (forall first rest name,
        tokens = first :: rest ->
        lookup_outcome then_ else_default name rest
          (extract_standalone_first_field_or_regular_field
             prefixLen (Some name) then_ else_default response)).
Proof.
  intros tokens. split; [|split].
  - destruct (response_has_first_token prefixLen response) as (first & rest & Htok).
    exists first, rest. split; [exact Htok|].
    now apply standalone_first_field with rest.
  - intros Hrem. apply standalone_first_field with (@nil string).
    now rewrite Hrem.
  - intros first rest name Htok.
    rewrite (standalone_regular_field then_ else_default
               prefixLen name response first rest Htok).
    apply find_first_by_key_lookup_outcome.
Qed.

(** Where nothing follows the prefix the extractor for no field does not
    raise [StopIteration]: it returns the transform of the empty token. *)
Lemma standalone_first_field_of_empty_remainder_is_returned :
  PyStr.slice_from 8 "C1:" = EmptyString
  /\ extract_standalone_first_field_or_regular_field 8 None identity PNone "C1:"
     = ([PStr EmptyString], Ret (PStr EmptyString))
  /\ snd (extract_standalone_first_field_or_regular_field
            8 None identity PNone "C1:")
     <> Raise StopIteration.
Proof. repeat split. discriminate. Qed.

Lemma extract_standalone_first_field_or_regular_field_spec_witness :
  extract_standalone_first_field_or_regular_field 8 None identity PNone "C1:"
  = ([PStr EmptyString], Ret (PStr EmptyString))
  /\ extract_standalone_first_field_or_regular_field 8 (Some "K") identity PNone
       "<prefix>K,A,1,K,2,K,3,B"
     = ([PStr "2"], Ret (PStr "2"))
  /\ extract_standalone_first_field_or_regular_field 8 (Some "K") identity PNone
       "<prefix>K,A,V"
     = ([], Ret PNone).
Proof.
  split; [|split].
  - apply (proj1 (proj2 (extract_standalone_first_field_or_regular_field_spec
                           identity PNone 8 "C1:"))).
    reflexivity.
  - apply (proj1 (proj2 (proj2 (extract_standalone_first_field_or_regular_field_spec
                                  identity PNone 8 "<prefix>K,A,1,K,2,K,3,B"))
             "K" ["A"; "1"; "K"; "2"; "K"; "3"; "B"] "K" eq_refl
             [("A", "1"); ("K", "2"); ("K", "3")] ["B"] eq_refl (le_n 1))
             [("A", "1")] "2" [("K", "3")] eq_refl).
    simpl. intuition discriminate.
  - apply (proj2 (proj2 (proj2 (extract_standalone_first_field_or_regular_field_spec
                                  identity PNone 8 "<prefix>K,A,V"))
             "K" ["A"; "V"] "K" eq_refl [("A", "V")] [] eq_refl (le_S 0 0 (le_n 0)))).
    simpl. intuition discriminate.
Defined.

(** ** The transform and the default, strategy by strategy *)



